(** * Tree cache and status reconciliation of the drive file picker

    A shallow embedding of the hooks [useFileTree], [useKnowledgeBaseStatus],
    [useKnowledgeBaseDeletion] and [useFileSelection].

    Conventions of the embedding:
    - a JavaScript [Map<string, V>] or a plain object used as a map is a
      [gmap string V]; a [Set<string>] is a [gset string];
    - a value that may be [undefined] is an [option];
    - React state read by a callback is the value captured by the render the
      callback was created in; state updates of the form [prev => ...] act
      on the current state.  Handlers therefore take the captured render
      ([rs]) and the current state ([st]) as two arguments;
    - answers of the network are inputs of the handlers. *)

From Stdlib Require Import String Ascii List ZArith Lia Bool.
From stdpp Require Import base gmap strings list fin_maps.

Local Open Scope Z_scope.
#[local] Set Warnings "-clear-no-such-hyp".


(** ** JavaScript helpers *)

(** A string is truthy unless it is empty. *)
Definition truthy (s : string) : bool := negb (String.eqb s "").

(** [a || b] on possibly undefined strings. *)
Definition js_or (a b : option string) : option string :=
  match a with
  | Some s => if truthy s then Some s else b
  | None => b
  end.

(** [s.startsWith(p)] *)
Definition startsWith (s p : string) : bool := String.prefix p s.

(** [arr.findIndex(p)], [None] standing for [-1]. *)
Fixpoint findIndex {A} (p : A -> bool) (l : list A) : option nat :=
  match l with
  | [] => None
  | x :: r => if p x then Some 0%nat else S <$> findIndex p r
  end.

(** [arr.filter((x, index) => p x index)], the index counted from [i]. *)
Fixpoint filterIndexed {A} (p : A -> nat -> bool) (i : nat) (l : list A) : list A :=
  match l with
  | [] => []
  | x :: r => if p x i then x :: filterIndexed p (S i) r else filterIndexed p (S i) r
  end.

(** [s.split(sep)] for a separator of one character: never the empty
    list. *)
Fixpoint splitOn (sep : ascii) (s : string) : list string :=
  match s with
  | EmptyString => [EmptyString]
  | String c r =>
      if Ascii.eqb c sep then EmptyString :: splitOn sep r
      else match splitOn sep r with
           | [] => [String c EmptyString]
           | seg :: segs => String c seg :: segs
           end
  end.

(** [parts.join(sep)] *)
Fixpoint joinWith (sep : string) (parts : list string) : string :=
  match parts with
  | [] => ""
  | [x] => x
  | x :: rest => x +:+ sep +:+ joinWith sep rest
  end.

(** A plain object used as a map from strings to booleans ([Record<string,
    boolean>], created by [{}] or by a spread) is given by its own
    properties; reading a key it does not own goes on to [Object.prototype].
    The members of [Object.prototype], all of them truthy: *)
Definition objectPrototypeKeys : list string :=
  ["constructor"; "__defineGetter__"; "__defineSetter__"; "hasOwnProperty";
   "__lookupGetter__"; "__lookupSetter__"; "isPrototypeOf"; "propertyIsEnumerable";
   "toString"; "valueOf"; "__proto__"; "toLocaleString"].

Definition inherited (k : string) : bool :=
  existsb (String.eqb k) objectPrototypeKeys.

(** [obj[k]] read as a condition. *)
Definition objTruthy (obj : gmap string bool) (k : string) : bool :=
  match obj !! k with
  | Some b => b
  | None => inherited k
  end.

(** [obj[k] = v]. On an object that does not own [__proto__] the assignment
    to this key runs the setter of [Object.prototype], which ignores a
    boolean; any other key becomes an own property. *)
Definition objSet (obj : gmap string bool) (k : string) (v : bool) : gmap string bool :=
  if String.eqb k "__proto__" && negb (bool_decide (is_Some (obj !! k))) then obj
  else <[k := v]> obj.

(** [delete obj[k]]: the own property goes, an inherited member stays. *)
Definition objDelete (obj : gmap string bool) (k : string) : gmap string bool :=
  delete k obj.

(** ** Data model *)

(** The fields of [FileItem] the hooks read from a listing. *)
Record FileItem := mkFile {
  id : string;
  name : string;
  type : string;
  status : option string
}.

Definition withStatus (s : option string) (f : FileItem) : FileItem :=
  mkFile (id f) (name f) (type f) s.

Definition isFile (f : FileItem) : bool := String.eqb (type f) "file".
Definition isDirectory (f : FileItem) : bool := String.eqb (type f) "directory".
Definition hasStatus (s : string) (f : FileItem) : bool :=
  match status f with Some t => String.eqb t s | None => false end.

(** A [FileItem] after [buildFileTree]: the listing fields and the derived
    ones. *)
#[local] Unset Elimination Schemes.
Inductive TreeItem := mkTreeItem {
  file : FileItem;
  isExpanded : bool;
  isLoading : bool;
  children : list TreeItem;
  level : nat
}.
#[local] Set Elimination Schemes.

(** A resource of a knowledge-base listing ([resource: any], of which [id]
    and [status] are read). *)
Record KBResource := mkResource {
  rid : string;
  rstatus : option string
}.

(** What [listKBResourcesSafe] does: it throws, or returns an object whose
    [data] may be missing. *)
Inductive KBResponse :=
  | KBThrows
  | KBReturns (data : option (list KBResource)).

(** What [queryClient.fetchQuery] of a folder does. *)
Inductive DriveResponse :=
  | DriveThrows
  | DriveReturns (data : option (list FileItem)).

(** [!kbId] is false for a non-empty id only. *)
Definition kbIdPresent (kbId : option string) : bool :=
  match kbId with Some k => truthy k | None => false end.

(** ** useFileTree *)

Module FileTree.

Definition POLL_INTERVAL : Z := 3000.

(** The state of the hook, with the part of the query cache under the key
    ["drive-files"]. An entry without [data] reads like a missing entry. *)
Record State := mkState {
  expandedFolders : gset string;
  loadingFolders : gset string;
  errorToastShown : gset string;
  queryCache : gmap string (list FileItem)
}.

Definition setExpandedFolders (f : gset string -> gset string) (st : State) : State :=
  mkState (f (expandedFolders st)) (loadingFolders st) (errorToastShown st) (queryCache st).
Definition setLoadingFolders (f : gset string -> gset string) (st : State) : State :=
  mkState (expandedFolders st) (f (loadingFolders st)) (errorToastShown st) (queryCache st).
Definition setErrorToastShown (f : gset string -> gset string) (st : State) : State :=
  mkState (expandedFolders st) (loadingFolders st) (f (errorToastShown st)) (queryCache st).
Definition setQueryCache (c : gmap string (list FileItem)) (st : State) : State :=
  mkState (expandedFolders st) (loadingFolders st) (errorToastShown st) c.

(** [resource.status || "unknown"] *)
Definition statusOrUnknown (s : option string) : string :=
  match s with
  | Some t => if truthy t then t else "unknown"
  | None => "unknown"
  end.

Definition fetchKBStatusForFolder (kbId : option string) (resp : KBResponse)
  : gmap string string :=
  if negb (kbIdPresent kbId) then ∅
  else match resp with
       | KBThrows => ∅
       | KBReturns None => ∅
       | KBReturns (Some data) =>
           foldl (fun m r => <[rid r := statusOrUnknown (rstatus r)]> m) ∅ data
       end.

(** [getFolderPath(files)]: the name of the first file without its last
    segment, after a slash; [pop] drops the last of [pathParts]. *)
Definition getFolderPath (files : list FileItem) : string :=
  match files with
  | [] => ""
  | firstFile :: _ =>
      let pathParts := removelast (splitOn "/" (name firstFile)) in
      "/" +:+ joinWith "/" pathParts
  end.

Record Merged := mkMerged {
  updatedFiles : list FileItem;
  hasPending : bool;
  hasErrors : bool
}.

(** The map of one file of the fragment. *)
Definition mergeStatus (kbStatusMap : gmap string string) (f : FileItem) : FileItem :=
  withStatus (js_or (kbStatusMap !! id f) (status f)) f.

Definition updateCachedFilesWithStatus (folderId : string)
    (kbStatusMap : gmap string string) (cache : gmap string (list FileItem))
  : gmap string (list FileItem) * Merged :=
  match cache !! folderId with
  | None => (cache, mkMerged [] false false)
  | Some data =>
      let updated := map (mergeStatus kbStatusMap) data in
      (<[folderId := updated]> cache,
       mkMerged updated
         (existsb (fun f => isFile f && hasStatus "pending" f) updated)
         (existsb (fun f => isFile f && hasStatus "error" f) updated))
  end.

(** The outcome of a handler: the new state, the ids of the folders
    [toast.error] was called for, and whether [setTimeout] was called to run
    [pollFolderStatus] after [POLL_INTERVAL]. That the toast library drops a
    call while a toast of the same [toastId] is on display is not part of
    the model. *)
Record Outcome := mkOutcome {
  state : State;
  toasts : list string;
  rescheduled : bool
}.

(** The toast of a merge: raised when the merged fragment has an error file
    and the captured [errorToastShown] lacks the folder. *)
Definition toastAfterMerge (rs : State) (folderId : string) (m : Merged) (st : State)
  : State * list string :=
  if hasErrors m && negb (bool_decide (folderId ∈ errorToastShown rs))
  then (setErrorToastShown (fun prev => prev ∪ {[folderId]}) st, [folderId])
  else (st, []).

Definition pollFolderStatus (rs : State) (kbId : option string) (resp : KBResponse)
    (folderId : string) (st : State) : Outcome :=
  let freshStatus := fetchKBStatusForFolder kbId resp in
  let stillPending :=
    existsb (fun s => String.eqb s "pending") (map_to_list freshStatus).*2 in
  if stillPending then mkOutcome st [] true
  else
    let '(cache, m) := updateCachedFilesWithStatus folderId freshStatus (queryCache st) in
    let '(st', ts) := toastAfterMerge rs folderId m (setQueryCache cache st) in
    mkOutcome st' ts false.

Definition toggleFolder (rs : State) (kbId : option string) (folderId : string)
    (drive : DriveResponse) (resp : KBResponse) (st : State) : Outcome :=
  if bool_decide (folderId ∈ expandedFolders rs)
  then mkOutcome (setExpandedFolders (fun prev => prev ∖ {[folderId]}) st) [] false
  else
    let st1 := setLoadingFolders (fun prev => prev ∪ {[folderId]}) st in
    let finally := setLoadingFolders (fun prev => prev ∖ {[folderId]}) in
    match drive with
    | DriveThrows => mkOutcome (finally st1) [] false
    | DriveReturns data =>
        let st2 :=
          setQueryCache
            (match data with
             | Some d => <[folderId := d]> (queryCache st1)
             | None => delete folderId (queryCache st1)
             end) st1 in
        let driveFiles := default [] data in
        let '(st3, ts, again) :=
          if kbIdPresent kbId && (0 <? length driveFiles)%nat then
            let kbStatusMap := fetchKBStatusForFolder kbId resp in
            let '(cache, m) :=
              updateCachedFilesWithStatus folderId kbStatusMap (queryCache st2) in
            let '(st', ts) := toastAfterMerge rs folderId m (setQueryCache cache st2) in
            (st', ts, hasPending m)
          else (st2, [], false) in
        mkOutcome
          (finally (setExpandedFolders (fun prev => prev ∪ {[folderId]}) st3))
          ts again
    end.

Definition collapseAllFolders (st : State) : State :=
  mkState ∅ ∅ ∅ (queryCache st).

(** *** The materializer *)

Section Materializer.
(** What the render captured: the state (with the cache) and the status
    map of the root level (a missing map reads like an empty one). *)
Variable st : State.
Variable statusMap : gmap string string.

(** [buildFileTree(files, level)]. The recursion follows the cache, hence
    the fuel: [None] is a recursion deeper than [fuel]. The argument
    [parentPath] only feeds itself and is left out. *)
Fixpoint buildFileTree (fuel : nat) (files : list FileItem) (level : nat)
  : option (list TreeItem) :=
  match fuel with
  | O => None
  | S fuel' =>
      mapM (fun file =>
        let isExpanded := bool_decide (id file ∈ expandedFolders st) in
        let isLoading := bool_decide (id file ∈ loadingFolders st) in
        children ←
          (if isDirectory file && isExpanded && negb isLoading then
             match queryCache st !! id file with
             | Some data => buildFileTree fuel' data (S level)
             | None => Some []
             end
           else Some []);
        let kbStatus :=
          if (level =? 0)%nat then statusMap !! id file else status file in
        Some (mkTreeItem (withStatus (js_or kbStatus (status file)) file)
                isExpanded isLoading children level)) files
  end.

(** [fileTree]: the tree of the root listing. *)
Definition fileTree (fuel : nat) (rootData : option (list FileItem))
  : option (list TreeItem) :=
  match rootData with
  | Some data => buildFileTree fuel data 0
  | None => Some []
  end.
End Materializer.

(** [traverse] of [flattenTree]: [result] is the array the rows are pushed
    to. *)
Fixpoint traverseItem (item : TreeItem) (result : list TreeItem) : list TreeItem :=
  match item with
  | mkTreeItem _ _ _ ch _ =>
      let pushed := result ++ [item] in
      match ch with
      | [] => pushed
      | _ :: _ => foldl (fun res it => traverseItem it res) pushed ch
      end
  end.

Definition traverse (items : list TreeItem) (result : list TreeItem) : list TreeItem :=
  foldl (fun res it => traverseItem it res) result items.

Definition flattenTree (tree : list TreeItem) : list TreeItem := traverse tree [].

End FileTree.

(** ** useKnowledgeBaseStatus *)

Module KBStatus.

Definition POLL_INTERVAL : Z := 3000.
Definition MAX_POLL_DURATION : Z := 2 * 60 * 1000.

Record State := mkState {
  shouldPoll : bool;
  pollingStartTime : Z;
  hasShownErrorToast : bool
}.

Definition setShouldPoll (b : bool) (st : State) : State :=
  mkState b (pollingStartTime st) (hasShownErrorToast st).
Definition setHasShownErrorToast (b : bool) (st : State) : State :=
  mkState (shouldPoll st) (pollingStartTime st) b.

Definition hasUnsettledFiles (files : list FileItem) : bool :=
  existsb (fun f => hasStatus "pending" f || hasStatus "pending_delete" f) files.

(** The effect that decides whether polling continues, run on the listing
    [data] at time [now]. Its output is the new state and the toasts raised,
    each with the number of error files it reports. *)
Definition pollEffect (data : option (list FileItem)) (now : Z) (st : State)
  : State * list nat :=
  match data with
  | None => (st, [])
  | Some resources =>
      if (length resources =? 0)%nat then (setShouldPoll false st, [])
      else
        let files := List.filter isFile resources in
        if (length files =? 0)%nat then (setShouldPoll false st, [])
        else
          let unsettled := hasUnsettledFiles files in
          let errorFiles := List.filter (hasStatus "error") files in
          let '(st1, ts) :=
            if (0 <? length errorFiles)%nat && negb (hasShownErrorToast st)
            then (setHasShownErrorToast true st, [length errorFiles])
            else (st, []) in
          let pollingDuration := now - pollingStartTime st in
          if MAX_POLL_DURATION <? pollingDuration then (setShouldPoll false st1, ts)
          else if negb unsettled then (setShouldPoll false st1, ts)
          else (st1, ts)
  end.

(** [statusMap]: the statuses of the listing by id, for quick lookups. *)
Definition statusMap (data : option (list FileItem)) : gmap string string :=
  match data with
  | None => ∅
  | Some resources =>
      foldl (fun m r => <[id r := FileTree.statusOrUnknown (status r)]> m) ∅ resources
  end.

(** [allFilesSettled] *)
Definition allFilesSettled (data : option (list FileItem)) : bool :=
  match data with
  | None => false
  | Some resources =>
      forallb (fun f => negb (hasStatus "pending" f) && negb (hasStatus "pending_delete" f))
        resources
  end.

(** The five counters of [statusCounts]. *)
Record Counts := mkCounts {
  indexed : nat;
  pending : nat;
  pending_delete : nat;
  error : nat;
  unknown : nat
}.

(** One turn of the loop of [statusCounts]: [counts[status]++] when [status]
    is one of the five keys. For any other status the five counters keep
    their values. *)
Definition countStatus (c : Counts) (r : FileItem) : Counts :=
  let s := FileTree.statusOrUnknown (status r) in
  if String.eqb s "indexed" then
    mkCounts (S (indexed c)) (pending c) (pending_delete c) (error c) (unknown c)
  else if String.eqb s "pending" then
    mkCounts (indexed c) (S (pending c)) (pending_delete c) (error c) (unknown c)
  else if String.eqb s "pending_delete" then
    mkCounts (indexed c) (pending c) (S (pending_delete c)) (error c) (unknown c)
  else if String.eqb s "error" then
    mkCounts (indexed c) (pending c) (pending_delete c) (S (error c)) (unknown c)
  else if String.eqb s "unknown" then
    mkCounts (indexed c) (pending c) (pending_delete c) (error c) (S (unknown c))
  else c.

Definition statusCounts (data : option (list FileItem)) : Counts :=
  foldl countStatus (mkCounts 0 0 0 0 0) (default [] data).

End KBStatus.

(** ** useKnowledgeBaseStatus, the earlier version *)

Module KBStatusV1.

Definition POLL_INTERVAL : Z := 3000.
Definition MAX_POLL_DURATION : Z := 2 * 60 * 1000.

Record State := mkState {
  shouldPoll : bool;
  pollingStartTime : Z
}.

Definition setShouldPoll (b : bool) (st : State) : State :=
  mkState b (pollingStartTime st).

(** The effect that decides whether polling continues. Its last branch
    (files settled, before the time-out) holds a comment only. *)
Definition pollEffect (data : option (list FileItem)) (now : Z) (st : State) : State :=
  match data with
  | None => st
  | Some resources =>
      if (length resources =? 0)%nat then setShouldPoll false st
      else
        let files := List.filter isFile resources in
        if (length files =? 0)%nat then setShouldPoll false st
        else
          let unsettled := KBStatus.hasUnsettledFiles files in
          let pollingDuration := now - pollingStartTime st in
          if MAX_POLL_DURATION <? pollingDuration then setShouldPoll false st
          else if negb unsettled && (pollingDuration <? MAX_POLL_DURATION) then st
          else st
  end.

End KBStatusV1.

(** ** useKnowledgeBaseDeletion *)

Module Deletion.

(** One entry of [results]. *)
Record Result := mkResult {
  resultFile : FileItem;
  success : bool
}.

(** The hook's state and what it shares with the rest of the program: the
    knowledge base behind [deleteKBResource], the ["drive-files"] entries of
    the query cache, the query keys invalidated so far and the requests sent
    so far (knowledge-base id and path, in order). *)
Record Env {World : Type} := mkEnv {
  isDeleting : bool;
  deletingFiles : gset string;
  world : World;
  driveFiles : gmap string (list FileItem);
  invalidated : list string;
  calls : list (string * string)
}.
Arguments Env : clear implicits.
Arguments mkEnv {World}.

Section Batch.
Context {World : Type}.
(** [deleteKBResource(kbId, path)]: the knowledge base after the request,
    and whether the promise resolved ([true]) or rejected ([false]). *)
Variable deleteKBResource : string -> string -> World -> World * bool.

(** The state of the loop of [mutationFn]. *)
Record Loop := mkLoop {
  loopWorld : World;
  loopDeleting : gset string;
  results : list Result;
  requests : list (string * string)
}.

(** One turn of [for (const file of filesToDelete)]. *)
Definition deleteOne (kbId : string) (l : Loop) (f : FileItem) : Loop :=
  let marked := loopDeleting l ∪ {[id f]} in
  let '(w, ok) := deleteKBResource kbId (name f) (loopWorld l) in
  mkLoop w (marked ∖ {[id f]})
    (results l ++ [mkResult f ok])
    (requests l ++ [(kbId, name f)]).

Definition mutationFn (kbId : string) (filesToDelete : list FileItem) (l : Loop) : Loop :=
  foldl (deleteOne kbId) l filesToDelete.

(** What the knowledge base answers when it is sent the requests of
    [files] one after the other, from the state [w]. *)
Fixpoint outcomes (kbId : string) (files : list FileItem) (w : World) : list bool :=
  match files with
  | [] => []
  | f :: rest =>
      let '(w', ok) := deleteKBResource kbId (name f) w in
      ok :: outcomes kbId rest w'
  end.

(** The files pushed for one selected id. *)
Definition candidatesOf (fileMap : gmap string FileItem) (allFiles : list FileItem)
    (i : string) : list FileItem :=
  match fileMap !! i with
  | None => []
  | Some item =>
      if isFile item && hasStatus "indexed" item then [item]
      else if isDirectory item then
        List.filter (fun f => isFile f && hasStatus "indexed" f
                              && startsWith (name f) (name item +:+ "/")) allFiles
      else []
  end.

Definition fileMapOf (allFiles : list FileItem) : gmap string FileItem :=
  foldl (fun m f => <[id f := f]> m) ∅ allFiles.

Definition filesToDelete (selectedIds : list string) (allFiles : list FileItem)
  : list FileItem :=
  foldl (fun acc i => acc ++ candidatesOf (fileMapOf allFiles) allFiles i) [] selectedIds.

Definition removeDuplicates (arr : list FileItem) : list FileItem :=
  filterIndexed
    (fun f index =>
       bool_decide (findIndex (fun g => String.eqb (id g) (id f)) arr = Some index))
    0 arr.

(** [uniqueFiles]: the deletion plan. *)
Definition uniqueFiles (selectedIds : list string) (allFiles : list FileItem)
  : list FileItem :=
  removeDuplicates (filesToDelete selectedIds allFiles).

(** [deleteSelectedFiles], run until the mutation has settled. *)
Definition deleteSelectedFiles (kbId : option string) (selectedIds : list string)
    (allFiles : list FileItem) (e : Env World) : Env World :=
  match kbId with
  | None => e
  | Some k =>
      if negb (truthy k) then e
      else
        let plan := uniqueFiles selectedIds allFiles in
        if (length plan =? 0)%nat then e
        else
          let l := mutationFn k plan (mkLoop (world e) (deletingFiles e) [] []) in
          mkEnv false (loopDeleting l) (loopWorld l) ∅
            (invalidated e ++ ["kb-resources"; "kb-file-status"])
            (calls e ++ requests l)
  end.
End Batch.


Definition canDeleteFile (f : FileItem) : bool :=
  isFile f && hasStatus "indexed" f.

Definition canDeleteFolder (folder : FileItem) (allFiles : list FileItem) : bool :=
  if negb (isDirectory folder) then false
  else existsb (fun f => isFile f && hasStatus "indexed" f
                         && startsWith (name f) (name folder +:+ "/")) allFiles.

End Deletion.

(** ** useFileSelection *)

Module Selection.

(** [fileRelationships.childrenMap] *)
Definition childrenMap (files : list FileItem) : gmap string (list string) :=
  foldl (fun m f =>
           if isDirectory f then
             <[id f := map id (List.filter (fun g => startsWith (name g) (name f +:+ "/")) files)]> m
           else m) ∅ files.

(** The loop of [getAllDescendantIds]; [None] when the queue is not empty
    after [fuel] turns. *)
Fixpoint descend (fuel : nat) (cm : gmap string (list string))
    (queue descendants : list string) : option (list string) :=
  match queue with
  | [] => Some descendants
  | currentId :: rest =>
      match fuel with
      | O => None
      | S fuel' =>
          let children := default [] (cm !! currentId) in
          descend fuel' cm (rest ++ children) (descendants ++ children)
      end
  end.

Definition getAllDescendantIds (fuel : nat) (files : list FileItem) (fileId : string)
  : option (list string) :=
  descend fuel (childrenMap files) [fileId] [].

(** [newSelection[id] = true] or [delete newSelection[id]], on the plain
    object [sel]. *)
Definition mark (isSelected : bool) (sel : gmap string bool) (i : string)
  : gmap string bool :=
  if isSelected then objSet sel i true else objDelete sel i.

(** [handleRowSelection(fileId, isSelected)] on the selection [prev];
    [{ ...prev }] has the own properties of [prev]. *)
Definition handleRowSelection (fuel : nat) (files : list FileItem) (fileId : string)
    (isSelected : bool) (prev : gmap string bool) : option (gmap string bool) :=
  match List.find (fun f => String.eqb (id f) fileId) files with
  | None => Some prev
  | Some f =>
      let newSelection := mark isSelected prev fileId in
      if isDirectory f then
        descendantIds ← getAllDescendantIds fuel files fileId;
        Some (foldl (mark isSelected) newSelection descendantIds)
      else Some newSelection
  end.

(** [handleSelectAll(isSelected, visibleRows)], the rows given by their ids;
    the new selection starts as [{}]. *)
Definition handleSelectAll (isSelected : bool) (visibleRows : list string)
  : gmap string bool :=
  if isSelected then foldl (fun sel i => objSet sel i true) ∅ visibleRows else ∅.

(** [selectedFiles]: the files for which [rowSelection[file.id]] is truthy. *)
Definition selectedFiles (files : list FileItem) (rowSelection : gmap string bool)
  : list FileItem :=
  List.filter (fun f => objTruthy rowSelection (id f)) files.

Definition selectedResourceIds (files : list FileItem) (rowSelection : gmap string bool)
  : list string :=
  map id (selectedFiles files rowSelection).

End Selection.

(** ** Sessions: sequences of handler runs *)

Module Session.
Import FileTree.

(** What happens to the tree of one session: a click on a folder (with the
    answers of the two listings), a timer running [pollFolderStatus] (with
    the answer of the status listing), and [collapseAllFolders]. A click and
    a timer carry the render [rs] their handler was created in. *)
Inductive Event :=
  | Toggle (rs : State) (folderId : string) (drive : DriveResponse) (resp : KBResponse)
  | Poll (rs : State) (folderId : string) (resp : KBResponse)
  | CollapseAll.


Definition step (kbId : option string) (st : State) (ev : Event) : State * list string :=
  match ev with
  | Toggle rs f drive resp =>
      let o := toggleFolder rs kbId f drive resp st in (state o, toasts o)
  | Poll rs f resp =>
      let o := pollFolderStatus rs kbId resp f st in (state o, toasts o)
  | CollapseAll => (collapseAllFolders st, [])
  end.

(** The final state and all toasts raised, in order. *)
Fixpoint run (kbId : option string) (evs : list Event) (st : State) : State * list string :=
  match evs with
  | [] => (st, [])
  | ev :: rest =>
      let '(st1, ts1) := step kbId st ev in
      let '(st2, ts2) := run kbId rest st1 in
      (st2, ts1 ++ ts2)
  end.

(** The merge a handler performs, when it performs one: the folder and the
    listing of the folder merged with the fresh status map. An expansion
    merges the listing it fetched, with a knowledge base and a listing that
    is not empty; a poll merges the cached listing once no status is
    pending. *)
Definition mergeOf (kbId : option string) (st : State) (ev : Event)
  : option (string * list FileItem) :=
  match ev with
  | Toggle rs f drive resp =>
      if bool_decide (f ∈ expandedFolders rs) then None
      else match drive with
           | DriveReturns (Some data) =>
               if kbIdPresent kbId && (0 <? length data)%nat
               then Some (f, map (mergeStatus (fetchKBStatusForFolder kbId resp)) data)
               else None
           | _ => None
           end
  | Poll rs f resp =>
      let m := fetchKBStatusForFolder kbId resp in
      if existsb (fun s => String.eqb s "pending") (map_to_list m).*2 then None
      else match queryCache st !! f with
           | Some data => Some (f, map (mergeStatus m) data)
           | None => None
           end
  | CollapseAll => None
  end.

(** The folder in whose merged listing the handler observes a file in
    error. *)
Definition observesError (kbId : option string) (st : State) (ev : Event)
  : option string :=
  match mergeOf kbId st ev with
  | Some (f, merged) =>
      if existsb (fun g => isFile g && hasStatus "error" g) merged then Some f else None
  | None => None
  end.

(** Whether the set of notified folders that the handler reads, the one of
    its render, records [f]. *)
Definition readsRecorded (ev : Event) (f : string) : bool :=
  match ev with
  | Toggle rs _ _ _ | Poll rs _ _ => bool_decide (f ∈ errorToastShown rs)
  | CollapseAll => false
  end.

(** A handler that observes a file in error reads, for the folder, what the
    state [st] it runs in records. Nothing is asked of the render of a
    handler that observes no error. *)
Definition readsCurrent (kbId : option string) (st : State) (ev : Event) : bool :=
  match observesError kbId st ev with
  | Some f => Bool.eqb (readsRecorded ev f) (bool_decide (f ∈ errorToastShown st))
  | None => true
  end.

(** Every handler of the run does, at the state it runs in. *)
Fixpoint readCurrent (kbId : option string) (evs : list Event) (st : State) : bool :=
  match evs with
  | [] => true
  | ev :: rest => readsCurrent kbId st ev && readCurrent kbId rest (step kbId st ev).1
  end.



(** The effect of [useKnowledgeBaseStatus] over the ticks of one mount: each
    tick is the listing received and the time it is received at. *)
Fixpoint runRoot (ticks : list (option (list FileItem) * Z)) (st : KBStatus.State)
  : KBStatus.State * list nat :=
  match ticks with
  | [] => (st, [])
  | (data, now) :: rest =>
      let '(st1, ts1) := KBStatus.pollEffect data now st in
      let '(st2, ts2) := runRoot rest st1 in
      (st2, ts1 ++ ts2)
  end.

(** The timer chain of a folder whose status listing answers [resp] at every
    tick: whether tick [n] (counted from 0) is reached and calls [setTimeout]
    again. Tick [n] runs [(n + 1) * POLL_INTERVAL] after the expansion. *)
Fixpoint pollChain (rs : State) (kbId : option string) (resp : KBResponse)
    (folderId : string) (n : nat) (st : State) : bool :=
  let o := pollFolderStatus rs kbId resp folderId st in
  match n with
  | O => rescheduled o
  | S n' => rescheduled o && pollChain rs kbId resp folderId n' (state o)
  end.

End Session.

(** ** The words of the specification *)

Module Spec.
Import FileTree.

(** A file status still to settle. *)
Definition unsettled (f : FileItem) : bool :=
  hasStatus "pending" f || hasStatus "pending_delete" f.

(** [f] lies under the directory [d]: its name starts with the name of [d]
    and a slash. *)
Definition under (d f : FileItem) : bool := startsWith (name f) (name d +:+ "/").

(** The status a file gets from a map [m]: the value of [m] at its id, or
    else the status it had. *)
Definition mergedStatus (m : gmap string string) (f : FileItem) : option string :=
  match m !! id f with
  | Some s => Some s
  | None => status f
  end.

(** A deletable file. *)
Definition indexedFile (f : FileItem) : bool := isFile f && hasStatus "indexed" f.

(** The node a selected id stands for: the known file with this id (the last
    one, should the list repeat the id). *)
Definition knownNode (allFiles : list FileItem) (i : string) : option FileItem :=
  List.find (fun f => String.eqb (id f) i) (rev allFiles).

(** [f] is a candidate of the selection: a selected indexed file, or an
    indexed file under a selected directory. *)
Definition candidate (selectedIds : list string) (allFiles : list FileItem)
    (f : FileItem) : Prop :=
  exists i item,
    In i selectedIds /\ knownNode allFiles i = Some item
    /\ ((indexedFile item = true /\ f = item)
        \/ (isDirectory item = true /\ In f allFiles
            /\ indexedFile f = true /\ under item f = true)).

(** Deduplication by id: a file is kept unless its id is in [seen] or was met
    earlier in the list. *)
Fixpoint dedupById (seen : list string) (l : list FileItem) : list FileItem :=
  match l with
  | [] => []
  | f :: rest =>
      if in_dec string_dec (id f) seen then dedupById (id f :: seen) rest
      else f :: dedupById (id f :: seen) rest
  end.

(** Whether a string holds a slash. *)
Fixpoint hasSlash (s : string) : bool :=
  match s with
  | EmptyString => false
  | String c r => Ascii.eqb c "/" || hasSlash r
  end.

(** How many files of a listing count under the key [key] of
    [statusCounts]. *)
Definition countOf (key : string) (resources : list FileItem) : nat :=
  length (List.filter (fun r => String.eqb (FileTree.statusOrUnknown (status r)) key)
            resources).

(** Breadth first over a children map: the ids one step below the ids of
    [q], and the ids of the [k] levels below [q], level after level. *)
Definition childrenOf (cm : gmap string (list string)) (i : string) : list string :=
  default [] (cm !! i).

Definition nextLevel (cm : gmap string (list string)) (q : list string) : list string :=
  flat_map (childrenOf cm) q.

Fixpoint levels (cm : gmap string (list string)) (k : nat) (q : list string)
  : list string :=
  match k with
  | O => []
  | S k' => nextLevel cm q ++ levels cm k' (nextLevel cm q)
  end.

Section Materializer.
Variable st : State.
Variable statusMap : gmap string string.

(** The fragment shown under a row: the cached fragment of a directory
    that is expanded and not loading. *)
Definition visibleFragment (f : FileItem) : option (list FileItem) :=
  if isDirectory f && bool_decide (id f ∈ expandedFolders st)
     && negb (bool_decide (id f ∈ loadingFolders st))
  then queryCache st !! id f else None.

(** The row of [f] at depth [lvl] with the rows [kids] under it. *)
Definition rowOf (lvl : nat) (f : FileItem) (kids : list TreeItem) : TreeItem :=
  mkTreeItem
    (withStatus
       (js_or (if (lvl =? 0)%nat then statusMap !! id f else status f) (status f)) f)
    (bool_decide (id f ∈ expandedFolders st))
    (bool_decide (id f ∈ loadingFolders st))
    kids lvl.

(** The composed tree of a fragment at depth [lvl]. *)
Inductive Composed : nat -> list FileItem -> list TreeItem -> Prop :=
  | Composed_nil lvl : Composed lvl [] []
  | Composed_cons lvl f rest kids trest :
      Composed (S lvl) (default [] (visibleFragment f)) kids ->
      Composed lvl rest trest ->
      Composed lvl (f :: rest) (rowOf lvl f kids :: trest).

(** No row of [files] has visible fragments nested deeper than [n]. *)
Fixpoint depthWithin (n : nat) (files : list FileItem) : bool :=
  forallb (fun f =>
             match visibleFragment f, n with
             | None, _ => true
             | Some _, O => false
             | Some frag, S m => depthWithin m frag
             end) files.
End Materializer.

(** Pre-order: a row, then the rows under it. *)
Fixpoint preorder (t : TreeItem) : list TreeItem :=
  match t with
  | mkTreeItem _ _ _ ch _ => t :: flat_map preorder ch
  end.

(** Every row of the tree under [t] has its depth as level, [t] being at
    depth [d]. *)
Fixpoint leveled (d : nat) (t : TreeItem) : bool :=
  match t with
  | mkTreeItem _ _ _ ch lvl => (lvl =? d)%nat && forallb (leveled (S d)) ch
  end.

End Spec.

(** ** useKnowledgeBaseOperations *)

Module Operations.

(** The fields of a knowledge base the hook reads. *)
Record KnowledgeBase := mkKB {
  kb_id : string;
  kb_name : string;
  kb_created_at : string
}.

(** A request sent to the network. *)
Inductive Request :=
  | Create (resource_ids : list string)
  | Sync (kbId : string).

(** The state of the hook and what it shares: the record kept in local
    storage, the network and the requests sent so far. *)
Record Env {World : Type} := mkEnv {
  currentKB : option KnowledgeBase;
  isCreating : bool;
  storage : option KnowledgeBase;
  world : World;
  requests : list Request
}.
Arguments Env : clear implicits.
Arguments mkEnv {World}.

Section Creation.
Context {World : Type}.
(** [deduplicateResourceIds] is imported from a file that is not part of the
    sources at hand: it is a parameter. *)
Variable deduplicateResourceIds : list string -> list FileItem -> list string.
(** [createKnowledgeBase]: the knowledge base created, or [None] when the
    call throws. [syncKnowledgeBase]: whether the call returned. *)
Variable createKnowledgeBase : list string -> World -> World * option KnowledgeBase.
Variable syncKnowledgeBase : string -> World -> World * bool.

(** [hasKB] *)
Definition hasKB (e : Env World) : bool :=
  match currentKB e with Some _ => true | None => false end.

End Creation.

End Operations.

(** ** FileStatusCell *)

Module StatusCell.



End StatusCell.

(** * Properties *)

(** ** Strings and lists *)

Lemma truthy_nonempty s : truthy s = true <-> s <> "".
Proof.
  unfold truthy. rewrite negb_true_iff. apply String.eqb_neq.
Qed.

Lemma startsWith_iff s p : startsWith s p = true <-> exists r, s = p +:+ r.
Proof.
  unfold startsWith. revert s. induction p as [|a p IH]; intros s; simpl.
  - destruct s; split; eauto.
  - destruct s as [|b s]; simpl.
    + split; [discriminate | intros [r Hr]; discriminate].
    + destruct (ascii_dec a b) as [->|Hne].
      * rewrite IH. split; intros [r Hr]; exists r.
        -- simpl. by rewrite Hr.
        -- simpl in Hr. by injection Hr.
      * split; [discriminate|]. intros [r Hr]. simpl in Hr.
        injection Hr as Hb _. by destruct Hne.
Qed.

Lemma append_cons (a : ascii) (s t : string) : String a s +:+ t = String a (s +:+ t).
Proof. reflexivity. Qed.

Lemma append_assoc (a b c : string) : (a +:+ b) +:+ c = a +:+ (b +:+ c).
Proof.
  induction a as [|x a IH]; [reflexivity|]. by rewrite !append_cons, IH.
Qed.

Lemma length_append (a b : string) :
  String.length (a +:+ b) = (String.length a + String.length b)%nat.
Proof.
  induction a as [|x a IH]; [reflexivity|]. rewrite append_cons. simpl. by rewrite IH.
Qed.

(** A name under a directory is strictly longer than the directory's. *)
Lemma under_longer d f :
  Spec.under d f = true -> (String.length (name d) < String.length (name f))%nat.
Proof.
  unfold Spec.under. rewrite startsWith_iff. intros [r ->].
  rewrite !length_append. change (String.length "/") with 1%nat. lia.
Qed.

Lemma under_trans d e f :
  Spec.under d e = true -> Spec.under e f = true -> Spec.under d f = true.
Proof.
  unfold Spec.under. rewrite !startsWith_iff. intros [r ->] [r' ->].
  exists (r +:+ "/" +:+ r'). rewrite !append_assoc. reflexivity.
Qed.

Lemma file_not_directory f : isDirectory f = true -> isFile f = false.
Proof.
  unfold isDirectory, isFile. rewrite String.eqb_eq. intros ->. reflexivity.
Qed.

(** ** The status merge *)

Section Merge.
Import FileTree.

Lemma statusOrUnknown_truthy s : truthy (statusOrUnknown s) = true.
Proof.
  unfold statusOrUnknown. destruct s as [t|]; [|reflexivity].
  destruct (truthy t) eqn:E; [exact E | reflexivity].
Qed.

(** [fetchKBStatusForFolder] never stores an empty status. *)
Lemma fetch_values_truthy kbId resp i s :
  fetchKBStatusForFolder kbId resp !! i = Some s -> truthy s = true.
Proof.
  unfold fetchKBStatusForFolder.
  destruct (negb (kbIdPresent kbId)); [by rewrite lookup_empty|].
  destruct resp as [|[data|]]; try by rewrite lookup_empty.
  revert i s.
  induction data as [|r data IH] using rev_ind; intros i s; simpl.
  - by rewrite lookup_empty.
  - rewrite foldl_app. simpl. rewrite lookup_insert.
    case_decide; [|by apply IH].
    intros [= <-]. apply statusOrUnknown_truthy.
Qed.

Lemma mergeStatus_hit m f s :
  m !! id f = Some s -> truthy s = true -> mergeStatus m f = withStatus (Some s) f.
Proof.
  intros Hm Hs. unfold mergeStatus, js_or. by rewrite Hm, Hs.
Qed.

Lemma mergeStatus_miss m f : m !! id f = None -> mergeStatus m f = f.
Proof.
  intros Hm. unfold mergeStatus, js_or. rewrite Hm. by destruct f.
Qed.

(** C2. For every cached fragment and every status map that
    [fetchKBStatusForFolder] builds (the empty map of a failed fetch or of
    a missing knowledge base included), the merge rewrites the fragment of
    the folder file by file; a file keeps its id, name and type; its status
    becomes the value of the map at its id when there is one, and stays
    what it was otherwise, so that a miss never turns a known status into
    ["unknown"]; merging the empty map changes no file. *)
Theorem status_merge_total kbId resp folderId cache f :
  let m := fetchKBStatusForFolder kbId resp in
  let out := updateCachedFilesWithStatus folderId m cache in
  out.1 !! folderId = map (mergeStatus m) <$> cache !! folderId
  /\ updatedFiles out.2 = default [] (map (mergeStatus m) <$> cache !! folderId)
  /\ mergeStatus m f = withStatus (Spec.mergedStatus m f) f
  /\ (m !! id f = None -> mergeStatus m f = f)
  /\ (m !! id f = None -> status f <> Some "unknown" ->
      status (mergeStatus m f) <> Some "unknown")
  /\ mergeStatus ∅ f = f.
Proof.
  intros m out. repeat split.
  - subst out. unfold updateCachedFilesWithStatus.
    destruct (cache !! folderId) as [data|] eqn:E; simpl.
    + by rewrite lookup_insert_eq.
    + by rewrite E.
  - subst out. unfold updateCachedFilesWithStatus.
    by destruct (cache !! folderId).
  - unfold Spec.mergedStatus. destruct (m !! id f) as [s|] eqn:E.
    + apply mergeStatus_hit; [done|]. by eapply fetch_values_truthy.
    + rewrite mergeStatus_miss by done. by destruct f.
  - apply mergeStatus_miss.
  - intros Hm Hs. by rewrite mergeStatus_miss.
  - apply mergeStatus_miss, lookup_empty.
Qed.

Lemma status_merge_total_witness :
  let kb := KBReturns (Some [mkResource "a" (Some "indexed"); mkResource "b" None]) in
  let m := fetchKBStatusForFolder (Some "kb") kb in
  let fa := mkFile "a" "F/a" "file" (Some "pending") in
  let fc := mkFile "c" "F/c" "file" (Some "error") in
  m !! "c" = None
  /\ status (mergeStatus m fa) = Some "indexed"
  /\ status (mergeStatus m fc) <> Some "unknown".
Proof.
  intros kb m fa fc.
  pose proof (status_merge_total (Some "kb") kb "F" ∅ fc) as (_ & _ & _ & _ & H & _).
  pose proof (status_merge_total (Some "kb") kb "F" ∅ fa) as (_ & _ & Ha & _).
  split; [reflexivity|]. split.
  - fold m in Ha. rewrite Ha. reflexivity.
  - apply H; [reflexivity | discriminate].
Defined.
End Merge.

(** ** Termination of the pollers *)

Section Pollers.
Import FileTree.

(** The poll of the knowledge-base listing stops on time-out whatever the
    listing holds. *)
Lemma root_poll_stops_on_timeout resources now st :
  KBStatus.MAX_POLL_DURATION < now - KBStatus.pollingStartTime st ->
  KBStatus.shouldPoll (KBStatus.pollEffect (Some resources) now st).1 = false.
Proof.
  intros Ht. unfold KBStatus.pollEffect.
  destruct (length resources =? 0)%nat; [reflexivity|].
  destruct (length (List.filter isFile resources) =? 0)%nat; [reflexivity|].
  destruct (_ && negb (KBStatus.hasShownErrorToast st)); simpl;
    apply Z.ltb_lt in Ht; by rewrite Ht.
Qed.

(** Before the time-out, the poll of a listing with a file stops exactly
    when no file is pending or pending_delete. *)
Lemma root_poll_stops_iff_settled resources now st :
  List.filter isFile resources <> [] ->
  now - KBStatus.pollingStartTime st <= KBStatus.MAX_POLL_DURATION ->
  KBStatus.shouldPoll st = true ->
  KBStatus.shouldPoll (KBStatus.pollEffect (Some resources) now st).1 = false
  <-> existsb Spec.unsettled (List.filter isFile resources) = false.
Proof.
  intros Hf Ht Hp. unfold KBStatus.pollEffect.
  assert ((length resources =? 0)%nat = false) as ->.
  { apply Nat.eqb_neq. intros E. apply Hf.
    apply length_zero_iff_nil in E. by rewrite E. }
  assert ((length (List.filter isFile resources) =? 0)%nat = false) as ->.
  { apply Nat.eqb_neq. intros E. by apply Hf, length_zero_iff_nil. }
  assert ((KBStatus.MAX_POLL_DURATION <? now - KBStatus.pollingStartTime st) = false) as Hlt
    by (apply Z.ltb_ge; lia).
  change (KBStatus.hasUnsettledFiles (List.filter isFile resources))
    with (existsb Spec.unsettled (List.filter isFile resources)).
  destruct (existsb Spec.unsettled _);
    destruct (_ && negb (KBStatus.hasShownErrorToast st)); simpl; rewrite Hlt; simpl;
    rewrite ?Hp; split; congruence.
Qed.

Lemma poll_reschedules_while_pending rs kbId resp folderId st :
  existsb (fun s => String.eqb s "pending")
    (map_to_list (fetchKBStatusForFolder kbId resp)).*2 = true ->
  pollFolderStatus rs kbId resp folderId st = mkOutcome st [] true.
Proof. intros H. unfold pollFolderStatus. by rewrite H. Qed.

Lemma poll_stops_without_pending rs kbId resp folderId st :
  existsb (fun s => String.eqb s "pending")
    (map_to_list (fetchKBStatusForFolder kbId resp)).*2 = false ->
  rescheduled (pollFolderStatus rs kbId resp folderId st) = false.
Proof.
  intros H. unfold pollFolderStatus. rewrite H.
  destruct (updateCachedFilesWithStatus _ _ _) as [c m].
  by destruct (toastAfterMerge _ _ _ _).
Qed.

(** C1, at a scope whose only file is pending_delete. The poll of the
    folder does not call [setTimeout] again, whatever the render and the
    state; the poll of the knowledge-base listing, given the same file
    three seconds after its start, goes on. *)
Theorem folder_poll_stops_on_pending_delete rs folderId st :
  rescheduled
    (pollFolderStatus rs (Some "kb")
       (KBReturns (Some [mkResource "f1" (Some "pending_delete")])) folderId st) = false
  /\ KBStatus.pollEffect (Some [mkFile "f1" "F/f1" "file" (Some "pending_delete")])
       3000 (KBStatus.mkState true 0 false)
     = (KBStatus.mkState true 0 false, []).
Proof.
  split; [|reflexivity].
  apply poll_stops_without_pending. reflexivity.
Qed.

(** C3, at a folder whose status listing answers "pending" for ever. Every
    tick of the timer chain calls [setTimeout] again: tick 40 runs 123
    seconds after the expansion, past [MAX_POLL_DURATION], and so do all
    later ones. *)
Theorem folder_poll_has_no_timeout rs folderId st n :
  Session.pollChain rs (Some "kb")
    (KBReturns (Some [mkResource "f1" (Some "pending")])) folderId n st = true.
Proof.
  induction n as [|n IH]; simpl;
    rewrite poll_reschedules_while_pending by reflexivity; [reflexivity|].
  simpl. exact IH.
Qed.
End Pollers.

(** ** The failure notification *)

Section Notification.
Import FileTree Session.

(** A merge raises the toast of its folder exactly when it sees an error
    file and the render has not recorded the folder. *)
Lemma merge_toast_iff rs folderId m st :
  (toastAfterMerge rs folderId m st).2 = [folderId]
  <-> hasErrors m = true /\ (folderId ∉ errorToastShown rs).
Proof.
  unfold toastAfterMerge. destruct (hasErrors m); simpl.
  - case_bool_decide as Hin; simpl.
    + split; [discriminate | intros [_ Hn]; by destruct Hn].
    + split; [by split | done].
  - split; [discriminate | intros [? _]; discriminate].
Qed.

Lemma merge_toast_cases rs folderId m st :
  let out := toastAfterMerge rs folderId m st in
  queryCache (out.1) = queryCache st
  /\ expandedFolders (out.1) = expandedFolders st
  /\ loadingFolders (out.1) = loadingFolders st
  /\ ((out.2 = [] /\ errorToastShown (out.1) = errorToastShown st)
      \/ (out.2 = [folderId] /\ (folderId ∉ errorToastShown rs)
          /\ errorToastShown (out.1) = errorToastShown st ∪ {[folderId]})).
Proof.
  unfold toastAfterMerge.
  destruct (hasErrors m); simpl; [case_bool_decide; simpl|]; naive_solver.
Qed.




Lemma run_cons kbId ev evs st :
  run kbId (ev :: evs) st
  = ((run kbId evs (step kbId st ev).1).1,
     (step kbId st ev).2 ++ (run kbId evs (step kbId st ev).1).2).
Proof.
  simpl. destruct (step kbId st ev) as [st1 ts1]. simpl.
  by destruct (run kbId evs st1).
Qed.

Lemma run_app kbId pre : forall evs st,
  (run kbId (pre ++ evs) st).1 = (run kbId evs (run kbId pre st).1).1.
Proof.
  induction pre as [|ev pre IH]; intros evs st; [reflexivity|].
  rewrite <- app_comm_cons, !run_cons. simpl. apply IH.
Qed.





End Notification.

Section NotificationClaims.
Import FileTree Session.




(** A poll scheduled by an expansion runs in the render of the expansion:
    when the expansion has raised the toast, the poll that ends the chain
    raises it again. *)
Remark stale_render_raises_again :
  let rs := mkState ∅ ∅ ∅ ∅ in
  let listing := [mkFile "a" "F/a" "file" None; mkFile "b" "F/b" "file" None] in
  let early := KBReturns (Some [mkResource "a" (Some "error");
                                mkResource "b" (Some "pending")]) in
  let late := KBReturns (Some [mkResource "a" (Some "error");
                               mkResource "b" (Some "indexed")]) in
  let o1 := toggleFolder rs (Some "kb") "F" (DriveReturns (Some listing)) early rs in
  let evs := [Toggle rs "F" (DriveReturns (Some listing)) early; Poll rs "F" late] in
  toasts o1 = ["F"] /\ rescheduled o1 = true
  /\ readCurrent (Some "kb") evs rs = false
  /\ (run (Some "kb") evs rs).2 = ["F"; "F"].
Proof.
  intros. split; [reflexivity|]. split; [reflexivity|]. split; reflexivity.
Qed.

(** C10. [collapseAllFolders] empties the expanded folders, the loading
    folders and the folders recorded as notified, and keeps the cache;
    the next expansion of a folder whose merged listing has an error file
    raises the toast of the folder, whether or not the folder had been
    notified before. *)
Theorem collapse_all_resets_notifications kbId folderId data resp st :
  kbIdPresent kbId = true ->
  data <> [] ->
  existsb (fun f => isFile f && hasStatus "error" f)
    (map (mergeStatus (fetchKBStatusForFolder kbId resp)) data) = true ->
  let st' := collapseAllFolders st in
  expandedFolders st' = ∅ /\ loadingFolders st' = ∅ /\ errorToastShown st' = ∅
  /\ queryCache st' = queryCache st
  /\ toasts (toggleFolder st' kbId folderId (DriveReturns (Some data)) resp st')
     = [folderId].
Proof.
  intros Hkb Hdata Herr st'. repeat split.
  unfold toggleFolder. simpl.
  rewrite bool_decide_eq_false_2 by set_solver.
  rewrite Hkb. destruct data as [|f0 data]; [done|].
  change (true && (0 <? length (f0 :: data))%nat) with true. cbv iota.
  unfold updateCachedFilesWithStatus. rewrite lookup_insert_eq.
  unfold toastAfterMerge. cbn [hasErrors]. rewrite Herr.
  rewrite bool_decide_eq_false_2 by set_solver. reflexivity.
Qed.

Lemma collapse_all_resets_notifications_witness :
  let broken := mkFile "a" "F/a" "file" None in
  let resp := KBReturns (Some [mkResource "a" (Some "error")]) in
  let st := mkState {["F"]} ∅ {["F"]} {["F" := [broken]]} in
  "F" ∈ errorToastShown st
  /\ toasts (toggleFolder (collapseAllFolders st) (Some "kb") "F"
               (DriveReturns (Some [broken])) resp (collapseAllFolders st)) = ["F"].
Proof.
  intros broken resp st. split; [apply (bool_decide_unpack _); by vm_compute|].
  apply (collapse_all_resets_notifications (Some "kb") "F" [broken] resp st);
    [reflexivity | discriminate | reflexivity].
Defined.
End NotificationClaims.

(** ** The deletion plan *)

Section Plan.
Import Deletion.

Lemma fileMapOf_lookup allFiles i :
  fileMapOf allFiles !! i = Spec.knownNode allFiles i.
Proof.
  unfold fileMapOf, Spec.knownNode.
  induction allFiles as [|f l IH] using rev_ind; [simpl; by rewrite lookup_empty|].
  rewrite foldl_app, rev_app_distr. simpl. rewrite lookup_insert.
  case_decide as E.
  - subst i. by rewrite String.eqb_refl.
  - apply String.eqb_neq in E. by rewrite E.
Qed.

Lemma knownNode_In allFiles i item :
  Spec.knownNode allFiles i = Some item -> In item allFiles /\ id item = i.
Proof.
  unfold Spec.knownNode. intros H. apply find_some in H as [Hin Hid].
  split; [by apply in_rev | by apply String.eqb_eq].
Qed.

Lemma filesToDelete_flat_map selectedIds allFiles :
  filesToDelete selectedIds allFiles
  = flat_map (candidatesOf (fileMapOf allFiles) allFiles) selectedIds.
Proof.
  unfold filesToDelete.
  enough (forall acc,
    foldl (fun acc i => acc ++ candidatesOf (fileMapOf allFiles) allFiles i) acc selectedIds
    = acc ++ flat_map (candidatesOf (fileMapOf allFiles) allFiles) selectedIds) as H
    by apply (H []).
  induction selectedIds as [|i l IH]; intros acc; simpl.
  - by rewrite app_nil_r.
  - by rewrite IH, app_assoc.
Qed.

Lemma filesToDelete_candidates selectedIds allFiles f :
  In f (filesToDelete selectedIds allFiles) <-> Spec.candidate selectedIds allFiles f.
Proof.
  rewrite filesToDelete_flat_map, in_flat_map. unfold Spec.candidate, candidatesOf.
  split.
  - intros (i & Hi & Hf). rewrite fileMapOf_lookup in Hf.
    destruct (Spec.knownNode allFiles i) as [item|] eqn:E; [|done].
    exists i, item. split; [done|]. split; [done|].
    fold (Spec.indexedFile item) in Hf.
    destruct (Spec.indexedFile item) eqn:Hidx.
    + left. destruct Hf as [<-|[]]. done.
    + right. destruct (isDirectory item) eqn:Hdir; [|done].
      apply filter_In in Hf as [Hin Hp].
      apply andb_true_iff in Hp as [Hp Hu]. done.
  - intros (i & item & Hi & Hk & Hcase). exists i. split; [done|].
    rewrite fileMapOf_lookup, Hk. fold (Spec.indexedFile item).
    destruct Hcase as [[Hidx ->]|(Hdir & Hin & Hidx & Hu)].
    + rewrite Hidx. by left.
    + assert (Spec.indexedFile item = false) as ->.
      { unfold Spec.indexedFile. by rewrite (file_not_directory _ Hdir). }
      rewrite Hdir. apply filter_In. split; [done|].
      unfold Spec.indexedFile in Hidx. unfold Spec.under in Hu. by rewrite Hidx, Hu.
Qed.

Lemma findIndex_at {A} (q : A -> bool) pre x r :
  findIndex q (pre ++ x :: r) = Some (length pre)
  <-> q x = true /\ forallb (fun y => negb (q y)) pre = true.
Proof.
  induction pre as [|y pre IH]; simpl.
  - destruct (q x); [done|]. split; [|by intros [? _]].
    destruct (findIndex q r); discriminate.
  - destruct (q y); simpl.
    + split; [discriminate | intros [_ ?]; discriminate].
    + rewrite <- IH. destruct (findIndex q (pre ++ x :: r)); simpl;
        split; intros; simplify_eq; done.
Qed.

(** The filter of [removeDuplicates] keeps the first file of each id. *)
Lemma removeDuplicates_dedup arr : removeDuplicates arr = Spec.dedupById [] arr.
Proof.
  unfold removeDuplicates.
  enough (forall l pre, arr = pre ++ l ->
    filterIndexed
      (fun f index =>
         bool_decide (findIndex (fun g => String.eqb (id g) (id f)) arr = Some index))
      (length pre) l
    = Spec.dedupById (rev (map id pre)) l) as H by apply (H arr []), eq_refl.
  induction l as [|x l IH]; intros pre Harr; [reflexivity|]. simpl.
  assert (filterIndexed
            (fun f index =>
               bool_decide (findIndex (fun g => String.eqb (id g) (id f)) arr = Some index))
            (S (length pre)) l
          = Spec.dedupById (id x :: rev (map id pre)) l) as Hrest.
  { replace (S (length pre)) with (length (pre ++ [x])) by (rewrite length_app; simpl; lia).
    rewrite (IH (pre ++ [x])) by (by rewrite <- app_assoc).
    by rewrite map_app, rev_app_distr. }
  rewrite Hrest.
  assert (findIndex (fun g => String.eqb (id g) (id x)) arr = Some (length pre)
          <-> ~ In (id x) (rev (map id pre))) as Hkeep.
  { rewrite Harr, findIndex_at, String.eqb_refl, forallb_forall, <- in_rev, in_map_iff.
    split.
    - intros [_ Hall] (y & Hy & Hin). specialize (Hall y Hin).
      apply negb_true_iff, String.eqb_neq in Hall. done.
    - intros Hno. split; [done|]. intros y Hin.
      apply negb_true_iff, String.eqb_neq. intros Hy. apply Hno. eauto. }
  case_bool_decide as E1; destruct (in_dec string_dec _ _) as [E2|E2];
    try reflexivity; exfalso; tauto.
Qed.

Lemma dedupById_spec l : forall seen,
  NoDup (map id (Spec.dedupById seen l))
  /\ (forall f, In f (Spec.dedupById seen l) -> In f l /\ ~ In (id f) seen)
  /\ (forall f, In f l -> In (id f) seen
                \/ exists g, In g (Spec.dedupById seen l) /\ id g = id f).
Proof.
  induction l as [|x l IH]; intros seen; simpl.
  - split; [constructor|]. split; [intros f []|intros f []].
  - destruct (IH (id x :: seen)) as (Hnd & Hsub & Hcov).
    destruct (in_dec string_dec (id x) seen) as [Hseen|Hseen]; simpl.
    + split; [done|]. split.
      * intros f Hf. destruct (Hsub f Hf) as [? Hn]. split; [by right|].
        intros ?. apply Hn. by right.
      * intros f [->|Hf]; [by left|].
        destruct (Hcov f Hf) as [[E|?]|?]; [left; congruence | by left | by right].
    + split; [|split].
      * apply NoDup_cons. split; [|done].
        rewrite list_elem_of_In, in_map_iff. intros (g & Hg & Hin).
        destruct (Hsub g Hin) as [_ Hn]. apply Hn. by left.
      * intros f [<-|Hf]; [split; [by left|done]|].
        destruct (Hsub f Hf) as [? Hn]. split; [by right|].
        intros ?. apply Hn. by right.
      * intros f [->|Hf]; [right; exists f; split; [by left|done]|].
        destruct (Hcov f Hf) as [[E|?]|(g & ? & ?)].
        -- right. exists x. split; [by left|done].
        -- by left.
        -- right. exists g. split; [by right|done].
Qed.
End Plan.

Section PlanClaims.
Import Deletion.

Lemma NoDup_ids_inj (l : list FileItem) a b :
  NoDup (map id l) -> In a l -> In b l -> id a = id b -> a = b.
Proof.
  induction l as [|x l IH]; [intros _ []|]. simpl.
  rewrite NoDup_cons, list_elem_of_In. intros [Hx Hnd] [<-|Ha] [<-|Hb] E; auto.
  - destruct Hx. rewrite E. by apply in_map.
  - destruct Hx. rewrite <- E. by apply in_map.
Qed.

Lemma candidate_known selectedIds allFiles f :
  Spec.candidate selectedIds allFiles f -> In f allFiles.
Proof.
  intros (i & item & _ & Hk & [[_ ->]|(_ & Hin & _)]); [|done].
  by apply knownNode_In in Hk as [? _].
Qed.

(** C5. The deletion plan has no two files of one id; each of its files is
    a candidate of the selection (a selected file that is indexed, or an
    indexed file whose name starts with the name of a selected directory
    and a slash); every candidate has its id in the plan; when the known
    files have distinct ids the plan holds exactly the candidates. With
    the selection of a directory [D] over files a (indexed), b (pending)
    and c (error), the plan is a alone, also when a is selected too. *)
Theorem deletion_plan_exact selectedIds allFiles :
  let plan := uniqueFiles selectedIds allFiles in
  NoDup (map id plan)
  /\ (forall f, In f plan -> Spec.candidate selectedIds allFiles f)
  /\ (forall f, Spec.candidate selectedIds allFiles f ->
                exists g, In g plan /\ id g = id f)
  /\ (NoDup (map id allFiles) ->
      forall f, In f plan <-> Spec.candidate selectedIds allFiles f)
  /\ (let D := mkFile "D" "D" "directory" None in
      let a := mkFile "a" "D/a" "file" (Some "indexed") in
      let b := mkFile "b" "D/b" "file" (Some "pending") in
      let c := mkFile "c" "D/c" "file" (Some "error") in
      uniqueFiles ["D"] [D; a; b; c] = [a]
      /\ uniqueFiles ["a"; "D"] [D; a; b; c] = [a]).
Proof.
  intros plan. subst plan. unfold uniqueFiles. rewrite removeDuplicates_dedup.
  destruct (dedupById_spec (filesToDelete selectedIds allFiles) []) as (Hnd & Hsub & Hcov).
  assert (forall f, Spec.candidate selectedIds allFiles f ->
            exists g, In g (Spec.dedupById [] (filesToDelete selectedIds allFiles))
                      /\ id g = id f) as Hall.
  { intros f Hf. apply filesToDelete_candidates in Hf.
    destruct (Hcov f Hf) as [[]|Hg]. exact Hg. }
  split; [exact Hnd|]. split; [|split; [exact Hall|split]].
  - intros f Hf. apply filesToDelete_candidates. by apply Hsub.
  - intros Hids f. split.
    + intros Hf. apply filesToDelete_candidates. by apply Hsub.
    + intros Hf. destruct (Hall f Hf) as (g & Hg & E).
      assert (g = f) as <-; [|done].
      apply (NoDup_ids_inj allFiles); [done| |by eapply candidate_known|done].
      eapply candidate_known, filesToDelete_candidates. by apply Hsub.
  - split; reflexivity.
Qed.

Lemma deletion_plan_exact_witness :
  let D := mkFile "D" "D" "directory" None in
  let a := mkFile "a" "D/a" "file" (Some "indexed") in
  let b := mkFile "b" "D/b" "file" (Some "pending") in
  NoDup (map id [D; a; b])
  /\ (In a (uniqueFiles ["D"] [D; a; b]) <-> Spec.candidate ["D"] [D; a; b] a).
Proof.
  intros D a b.
  assert (NoDup (map id [D; a; b])) as Hnd.
  { simpl. repeat (apply NoDup_cons; split; [by apply (bool_decide_unpack _)|]).
    apply NoDup_nil. done. }
  split; [exact Hnd|].
  destruct (deletion_plan_exact ["D"] [D; a; b]) as (_ & _ & _ & H & _).
  exact (H Hnd a).
Defined.

Section Backend.
Context {World : Type}.
Variable deleteKBResource : string -> string -> World -> World * bool.

(** A selected directory with no indexed file under it gives an empty
    plan. *)
Lemma directory_without_indexed_plan allFiles i d :
  Spec.knownNode allFiles i = Some d ->
  isDirectory d = true ->
  (forall f, In f allFiles -> Spec.indexedFile f = true -> Spec.under d f = false) ->
  uniqueFiles [i] allFiles = [].
Proof.
  intros Hk Hd Hno. unfold uniqueFiles.
  enough (filesToDelete [i] allFiles = []) as -> by reflexivity.
  rewrite filesToDelete_flat_map. simpl. rewrite app_nil_r.
  unfold candidatesOf. rewrite fileMapOf_lookup, Hk.
  rewrite (file_not_directory _ Hd), Hd. simpl.
  induction allFiles as [|f l IH] in Hno |- *; [reflexivity|]. simpl.
  rewrite IH by (intros; apply Hno; [by right|done]).
  fold (Spec.indexedFile f). fold (Spec.under d f).
  destruct (Spec.indexedFile f) eqn:E; [|reflexivity].
  rewrite (Hno f); [reflexivity | by left | done].
Qed.

(** C7. When the plan of a selection is empty, [deleteSelectedFiles]
    leaves everything as it is: no request is sent, and the deleting
    marks, the busy flag, the cache and the knowledge base are
    unchanged. *)
Theorem empty_plan_aborts kbId selectedIds allFiles (e : Env World) :
  uniqueFiles selectedIds allFiles = [] ->
  deleteSelectedFiles deleteKBResource kbId selectedIds allFiles e = e
  /\ calls (deleteSelectedFiles deleteKBResource kbId selectedIds allFiles e) = calls e.
Proof.
  intros Hplan.
  enough (deleteSelectedFiles deleteKBResource kbId selectedIds allFiles e = e) as ->
    by done.
  unfold deleteSelectedFiles. destruct kbId as [k|]; [|reflexivity].
  destruct (negb (truthy k)); [reflexivity|]. by rewrite Hplan.
Qed.

Lemma mutationFn_spec kbId files : forall l,
  results (mutationFn deleteKBResource kbId files l)
  = results l ++ zip_with mkResult files (outcomes deleteKBResource kbId files (loopWorld l))
  /\ requests (mutationFn deleteKBResource kbId files l)
     = requests l ++ map (fun f => (kbId, name f)) files
  /\ length (outcomes deleteKBResource kbId files (loopWorld l)) = length files.
Proof.
  unfold mutationFn.
  induction files as [|f files IH]; intros l; simpl.
  - by rewrite !app_nil_r.
  - destruct (IH (deleteOne deleteKBResource kbId l f)) as (Hr & Hq & Hn).
    rewrite Hr, Hq. unfold deleteOne in *.
    destruct (deleteKBResource kbId (name f) (loopWorld l)) as [w ok]. simpl in *.
    rewrite <- !app_assoc. simpl. by rewrite Hn.
Qed.

(** C8. Whatever the knowledge base answers, the loop of [mutationFn]
    sends one request per candidate, in the order of the candidates,
    and adds one result per candidate: the candidate with the answer to
    its own request, [true] for a deletion that succeeded and [false] for
    one that failed. *)
Theorem batch_attempts_every_candidate kbId files (l : Loop) :
  let l' := mutationFn deleteKBResource kbId files l in
  let answers := outcomes deleteKBResource kbId files (loopWorld l) in
  results l' = results l ++ zip_with mkResult files answers
  /\ requests l' = requests l ++ map (fun f => (kbId, name f)) files
  /\ length answers = length files
  /\ map resultFile (results l') = map resultFile (results l) ++ files
  /\ length (results l') = (length (results l) + length files)%nat.
Proof.
  intros l' answers.
  destruct (mutationFn_spec kbId files l) as (Hr & Hq & Hn).
  fold l' in Hr, Hq. fold answers in Hr, Hn.
  split; [exact Hr|]. split; [exact Hq|]. split; [exact Hn|].
  assert (map resultFile (zip_with mkResult files answers) = files) as Hfiles.
  { clear Hr. revert Hn. generalize answers. clear.
    induction files as [|f files IH]; intros [|ok oks]; simpl; try done.
    intros [= Hn]. by rewrite IH. }
  split.
  - by rewrite Hr, map_app, Hfiles.
  - rewrite Hr, length_app. f_equal.
    by rewrite <- (length_map resultFile), Hfiles.
Qed.
End Backend.

Lemma empty_plan_aborts_witness :
  let D := mkFile "D" "D" "directory" None in
  let b := mkFile "b" "D/b" "file" (Some "pending") in
  let c := mkFile "c" "D/c" "file" (Some "error") in
  let e := mkEnv false ∅ 0%nat {["D" := [b; c]]} [] [] in
  let del := fun (_ _ : string) (w : nat) => (S w, true) in
  uniqueFiles ["D"] [D; b; c] = []
  /\ calls (deleteSelectedFiles del (Some "kb") ["D"] [D; b; c] e) = [].
Proof.
  intros D b c e del. split; [reflexivity|].
  apply (empty_plan_aborts del (Some "kb") ["D"] [D; b; c] e). reflexivity.
Defined.
End PlanClaims.

(** ** Selection of a directory *)

Lemma name_length_bound (l : list FileItem) f :
  In f l ->
  (String.length (name f) <= list_sum (map (fun g => String.length (name g)) l))%nat.
Proof.
  induction l as [|x l IH]; [intros []|]. simpl.
  intros [->|Hin]; [lia|]. specialize (IH Hin). lia.
Qed.

Section Descendants.
Import Selection.

Variable files : list FileItem.
Hypothesis distinct_ids : NoDup (map id files).

Let insertChildren (m : gmap string (list string)) (f : FileItem) :=
  if isDirectory f then
    <[id f := map id (List.filter (fun g => startsWith (name g) (name f +:+ "/")) files)]> m
  else m.

Lemma childrenMap_entry l i cs :
  foldl insertChildren ∅ l !! i = Some cs ->
  exists d, In d l /\ id d = i /\ isDirectory d = true
            /\ cs = map id (List.filter (Spec.under d) files).
Proof.
  induction l as [|f l IH] using rev_ind; [simpl; by rewrite lookup_empty|].
  rewrite foldl_app. simpl. unfold insertChildren at 1.
  destruct (isDirectory f) eqn:Hd.
  - rewrite lookup_insert. case_decide as E.
    + intros [= <-]. exists f. rewrite in_app_iff. simpl. auto.
    + intros H. destruct (IH H) as (d & ? & ?). exists d.
      rewrite in_app_iff. auto.
  - intros H. destruct (IH H) as (d & ? & ?). exists d. rewrite in_app_iff. auto.
Qed.

Lemma childrenMap_key l d :
  In d l -> isDirectory d = true -> is_Some (foldl insertChildren ∅ l !! id d).
Proof.
  induction l as [|f l IH] using rev_ind; [intros []|].
  rewrite in_app_iff, foldl_app. simpl. unfold insertChildren at 1.
  intros [Hin|[->|[]]] Hd.
  - destruct (isDirectory f); [|by apply IH].
    rewrite lookup_insert. case_decide; [by eexists | by apply IH].
  - rewrite Hd, lookup_insert_eq. by eexists.
Qed.

(** The children of a directory of the list: the ids of the files under
    it. *)
Lemma childrenOf_directory d :
  In d files -> isDirectory d = true ->
  Spec.childrenOf (childrenMap files) (id d) = map id (List.filter (Spec.under d) files).
Proof.
  intros Hin Hd. unfold Spec.childrenOf.
  destruct (childrenMap_key files d Hin Hd) as [cs Hcs].
  change (childrenMap files !! id d = Some cs) in Hcs. rewrite Hcs. simpl.
  destruct (childrenMap_entry files _ _ Hcs) as (d' & Hin' & Hid & _ & ->).
  by rewrite (NoDup_ids_inj files d' d distinct_ids Hin' Hin Hid).
Qed.

(** A child found through the map lies under the file of the id it was
    found at. *)
Lemma childrenOf_under d c :
  In d files -> In c (Spec.childrenOf (childrenMap files) (id d)) ->
  exists g, In g files /\ id g = c /\ Spec.under d g = true.
Proof.
  intros Hin Hc. unfold Spec.childrenOf in Hc.
  destruct (childrenMap files !! id d) as [cs|] eqn:Hcs; [|destruct Hc].
  destruct (childrenMap_entry files _ _ Hcs) as (d' & Hin' & Hid & _ & ->).
  rewrite (NoDup_ids_inj files d' d distinct_ids Hin' Hin Hid) in Hc.
  simpl in Hc. apply in_map_iff in Hc as (g & Hg & Hf).
  apply filter_In in Hf as [? ?]. eauto.
Qed.

Lemma descend_level cm q1 : forall fuel q2 acc,
  descend (length q1 + fuel) cm (q1 ++ q2) acc
  = descend fuel cm (q2 ++ Spec.nextLevel cm q1) (acc ++ Spec.nextLevel cm q1).
Proof.
  induction q1 as [|c q1 IH]; intros fuel q2 acc; simpl.
  - by rewrite !app_nil_r.
  - rewrite <- app_assoc, IH.
    fold (Spec.childrenOf cm c). by rewrite <- !app_assoc.
Qed.

Lemma descend_levels cm k : forall q acc,
  Nat.iter k (Spec.nextLevel cm) q = [] ->
  exists fuel0, forall fuel, (fuel0 <= fuel)%nat ->
    descend fuel cm q acc = Some (acc ++ Spec.levels cm k q).
Proof.
  induction k as [|k IH]; intros q acc Hend.
  - simpl in Hend. subst q. exists 0%nat. intros fuel _.
    destruct fuel; simpl; by rewrite app_nil_r.
  - rewrite Nat.iter_succ_r in Hend.
    destruct (IH _ (acc ++ Spec.nextLevel cm q) Hend) as [fuel0 Hfuel].
    exists (length q + fuel0)%nat. intros fuel Hle.
    pose proof (descend_level cm q (fuel - length q) [] acc) as Hl.
    rewrite app_nil_r in Hl. simpl in Hl.
    replace (length q + (fuel - length q))%nat with fuel in Hl by lia.
    rewrite Hl, Hfuel by lia. by rewrite <- app_assoc.
Qed.

(** Ids of files whose names have at least [n] characters. *)
Let longer (n : nat) (q : list string) : Prop :=
  Forall (fun i => exists f, In f files /\ id f = i /\ (n <= String.length (name f))%nat) q.

Lemma nextLevel_longer n q :
  longer n q -> longer (S n) (Spec.nextLevel (childrenMap files) q).
Proof.
  unfold longer, Spec.nextLevel. rewrite !Forall_forall.
  intros Hq c Hc. apply list_elem_of_In, in_flat_map in Hc as (i & Hi & Hc).
  destruct (Hq i) as (d & Hd & <- & Hn); [by apply list_elem_of_In|].
  destruct (childrenOf_under d c Hd Hc) as (g & Hg & Hid & Hu).
  exists g. split; [done|]. split; [done|]. apply under_longer in Hu. lia.
Qed.

Lemma iter_longer k : forall n q,
  longer n q -> longer (k + n) (Nat.iter k (Spec.nextLevel (childrenMap files)) q).
Proof.
  induction k as [|k IH]; intros n q Hq; [done|].
  simpl. by apply nextLevel_longer, IH.
Qed.

(** The traversal comes to an end: below some level there is no id. *)
Lemma levels_end d :
  In d files ->
  exists k, Nat.iter (S k) (Spec.nextLevel (childrenMap files)) [id d] = [].
Proof.
  intros Hd.
  exists (list_sum (map (fun g => String.length (name g)) files)).
  set (k := list_sum _).
  assert (longer 0 [id d]) as H0.
  { apply Forall_cons. split; [|done]. exists d. split; [done|]. split; [done|lia]. }
  apply (iter_longer (S k)) in H0.
  destruct (Nat.iter (S k) _ [id d]) as [|c q]; [done|].
  apply Forall_cons in H0 as [(f & Hf & _ & Hlen) _].
  apply name_length_bound in Hf. fold k in Hf. lia.
Qed.

(** Ids of files under [d]. *)
Let below (d : FileItem) (q : list string) : Prop :=
  Forall (fun i => exists g, In g files /\ id g = i /\ Spec.under d g = true) q.

Lemma nextLevel_below d q :
  below d q -> below d (Spec.nextLevel (childrenMap files) q).
Proof.
  unfold below, Spec.nextLevel. rewrite !Forall_forall.
  intros Hq c Hc. apply list_elem_of_In, in_flat_map in Hc as (i & Hi & Hc).
  destruct (Hq i) as (e & He & <- & Hu); [by apply list_elem_of_In|].
  destruct (childrenOf_under e c He Hc) as (g & Hg & Hid & Hu').
  exists g. split; [done|]. split; [done|]. by eapply under_trans.
Qed.

Lemma levels_below d k : forall q,
  below d (Spec.nextLevel (childrenMap files) q) ->
  below d (Spec.levels (childrenMap files) k q).
Proof.
  induction k as [|k IH]; intros q Hq; simpl; [by apply Forall_nil|].
  apply Forall_app. split; [done|]. by apply IH, nextLevel_below.
Qed.

(** The ids collected below a directory: those of the files under it. *)
Lemma levels_descendants d k i :
  In d files -> isDirectory d = true ->
  In i (Spec.levels (childrenMap files) (S k) [id d])
  <-> exists f, In f files /\ id f = i /\ Spec.under d f = true.
Proof.
  intros Hd Hdir.
  assert (Spec.nextLevel (childrenMap files) [id d]
          = map id (List.filter (Spec.under d) files)) as Hfirst.
  { unfold Spec.nextLevel. simpl. rewrite app_nil_r. by apply childrenOf_directory. }
  assert (below d (Spec.nextLevel (childrenMap files) [id d])) as Hb.
  { rewrite Hfirst. unfold below. rewrite Forall_forall.
    intros c Hc. apply list_elem_of_In, in_map_iff in Hc as (g & Hg & Hf).
    apply filter_In in Hf as [? ?]. eauto. }
  split.
  - intros Hi. apply (levels_below d (S k)) in Hb. unfold below in Hb.
    rewrite Forall_forall in Hb. by apply Hb, list_elem_of_In.
  - intros (f & Hf & <- & Hu). cbn [Spec.levels]. apply in_app_iff. left.
    rewrite Hfirst. apply in_map, filter_In. done.
Qed.
End Descendants.

Section SelectionClaims.
Import Selection.

Lemma objSet_other obj k v j : j <> k -> objSet obj k v !! j = obj !! j.
Proof.
  intros Hne. unfold objSet. destruct (_ && _); [done|]. by rewrite lookup_insert_ne.
Qed.

Lemma objSet_own obj k v : k <> "__proto__" -> objSet obj k v !! k = Some v.
Proof.
  intros Hne. unfold objSet. apply String.eqb_neq in Hne. rewrite Hne. simpl.
  by rewrite lookup_insert_eq.
Qed.

(** After [obj[k] = true] the key reads truthy, also when the assignment
    made no entry. *)
Lemma objSet_truthy obj k : objTruthy (objSet obj k true) k = true.
Proof.
  unfold objSet, objTruthy.
  destruct (String.eqb_spec k "__proto__") as [->|Hne]; simpl.
  - case_bool_decide as Hown; simpl.
    + by rewrite lookup_insert_eq.
    + destruct (obj !! "__proto__") as [b|] eqn:E; [|reflexivity].
      destruct Hown. by eexists.
  - by rewrite lookup_insert_eq.
Qed.

Lemma mark_other b sel x j : j <> x -> mark b sel x !! j = sel !! j.
Proof.
  intros Hne. unfold mark, objDelete. destruct b.
  - by apply objSet_other.
  - by rewrite lookup_delete_ne.
Qed.

Lemma foldl_mark_out b l : forall sel i,
  ~ In i l -> foldl (mark b) sel l !! i = sel !! i.
Proof.
  induction l as [|x l IH] using rev_ind; intros sel i Hn; [done|].
  rewrite foldl_app. simpl. rewrite in_app_iff in Hn.
  rewrite mark_other by (intros ->; apply Hn; right; by left).
  apply IH. intros ?. apply Hn. by left.
Qed.

Lemma foldl_mark_selected l : forall sel i,
  In i l ->
  objTruthy (foldl (mark true) sel l) i = true
  /\ (i <> "__proto__" -> foldl (mark true) sel l !! i = Some true).
Proof.
  induction l as [|x l IH] using rev_ind; intros sel i Hin; [destruct Hin|].
  rewrite foldl_app. simpl. apply in_app_iff in Hin.
  destruct (string_dec i x) as [->|Hne].
  - split; [apply objSet_truthy | apply objSet_own].
  - destruct Hin as [Hin|[?|[]]]; [|congruence].
    destruct (IH sel i Hin) as [Ht Ho]. unfold objTruthy in *.
    unfold mark. by rewrite objSet_other.
Qed.

Lemma foldl_mark_deselected l : forall sel i,
  In i l -> foldl (mark false) sel l !! i = None.
Proof.
  induction l as [|x l IH] using rev_ind; intros sel i Hin; [destruct Hin|].
  rewrite foldl_app. simpl. unfold objDelete. apply in_app_iff in Hin.
  destruct (string_dec i x) as [->|Hne]; [by rewrite lookup_delete_eq|].
  rewrite lookup_delete_ne by done.
  destruct Hin as [Hin|[?|[]]]; [by apply IH | congruence].
Qed.

Lemma find_by_id files d :
  NoDup (map id files) -> In d files ->
  List.find (fun f => String.eqb (id f) (id d)) files = Some d.
Proof.
  intros Hnd Hin.
  destruct (List.find _ files) as [d'|] eqn:E.
  - apply find_some in E as [Hin' Hid]. apply String.eqb_eq in Hid.
    by rewrite (NoDup_ids_inj files d' d Hnd Hin' Hin Hid).
  - apply (find_none _ _ E) in Hin. by rewrite String.eqb_refl in Hin.
Qed.

(** C6, at a directory [D] over a file with id "constructor" and a file with
    id "__proto__". Selecting [D] makes no entry for "__proto__"; after
    [D] is deselected again the selection object is empty, and yet both
    files still read as selected, as they do before anything is selected:
    [rowSelection[file.id]] finds the members of [Object.prototype]. *)
Theorem deselect_keeps_prototype_ids_selected :
  let D := mkFile "D" "D" "directory" None in
  let c := mkFile "constructor" "D/c" "file" None in
  let p := mkFile "__proto__" "D/p" "file" None in
  let a := mkFile "a" "D/a" "file" None in
  let files := [D; c; p; a] in
  let selOn : gmap string bool := {["D" := true; "constructor" := true; "a" := true]} in
  handleRowSelection 9 files "D" true ∅ = Some selOn
  /\ selOn !! "__proto__" = None
  /\ selectedResourceIds files selOn = ["D"; "constructor"; "__proto__"; "a"]
  /\ handleRowSelection 9 files "D" false selOn = Some ∅
  /\ selectedResourceIds files ∅ = ["constructor"; "__proto__"].
Proof.
  intros D c p a files selOn.
  split; [by vm_compute|]. split; [by vm_compute|]. split; [by vm_compute|].
  split; by vm_compute.
Qed.

(** X28. Let the files of the list have distinct ids and [D] be a directory
    of the list. Given fuel enough, [getAllDescendantIds] returns the ids
    met breadth first below [D] in the children map, which are the ids of
    the files whose names start with the name of [D] and a slash. After
    [D] is selected, [D] and these ids read as selected, each with an entry
    [true] of its own unless it is "__proto__"; after [D] is deselected
    none of them has an entry, so that it reads as selected exactly when it
    is the name of a member of [Object.prototype]; the entries of all other
    ids are as they were. *)
Theorem select_directory_exact files D :
  NoDup (map id files) -> In D files -> isDirectory D = true ->
  exists fuel0 k ds,
    ds = Spec.levels (childrenMap files) k [id D]
    /\ (forall i, In i ds <-> exists f, In f files /\ id f = i /\ Spec.under D f = true)
    /\ forall fuel prev, (fuel0 <= fuel)%nat ->
         getAllDescendantIds fuel files (id D) = Some ds
         /\ exists selOn selOff,
              handleRowSelection fuel files (id D) true prev = Some selOn
              /\ handleRowSelection fuel files (id D) false prev = Some selOff
              /\ forall i,
                   (i = id D \/ In i ds ->
                    objTruthy selOn i = true
                    /\ (i <> "__proto__" -> selOn !! i = Some true)
                    /\ selOff !! i = None
                    /\ objTruthy selOff i = inherited i)
                   /\ (~ (i = id D \/ In i ds) ->
                       selOn !! i = prev !! i /\ selOff !! i = prev !! i).
Proof.
  intros Hnd Hin Hdir.
  destruct (levels_end files Hnd D Hin) as [k Hend].
  destruct (descend_levels (childrenMap files) (S k) [id D] [] Hend) as [fuel0 Hfuel].
  set (ds := Spec.levels (childrenMap files) (S k) [id D]) in *.
  assert (forall i, In i ds <-> exists f, In f files /\ id f = i /\ Spec.under D f = true)
    as Hmem by (intros i; by apply levels_descendants).
  exists fuel0, (S k), ds.
  split; [reflexivity|]. split; [exact Hmem|].
  clearbody ds. intros fuel prev Hle.
  assert (getAllDescendantIds fuel files (id D) = Some ds) as Hds
    by (unfold getAllDescendantIds; by rewrite Hfuel).
  split; [exact Hds|].
  unfold handleRowSelection. rewrite (find_by_id files D Hnd Hin), Hdir, Hds.
  exists (foldl (mark true) prev (id D :: ds)), (foldl (mark false) prev (id D :: ds)).
  split; [reflexivity|]. split; [reflexivity|].
  intros i. split.
  - intros Hi.
    assert (In i (id D :: ds)) as Hi' by (destruct Hi as [->|?]; [by left | by right]).
    destruct (foldl_mark_selected (id D :: ds) prev i Hi') as [Ht Ho].
    pose proof (foldl_mark_deselected (id D :: ds) prev i Hi') as Hoff.
    split; [exact Ht|]. split; [exact Ho|]. split; [exact Hoff|].
    unfold objTruthy. by rewrite Hoff.
  - intros Hn.
    assert (~ In i (id D :: ds)) as Hn' by (intros [<-|?]; apply Hn; [by left | by right]).
    by rewrite !foldl_mark_out.
Qed.

Lemma select_directory_exact_witness :
  let D := mkFile "D" "D" "directory" None in
  let a := mkFile "a" "D/a" "file" None in
  let b := mkFile "b" "D/b" "directory" None in
  let c := mkFile "c" "D/b/c" "file" None in
  let x := mkFile "x" "E" "file" None in
  let files := [D; a; b; c; x] in
  handleRowSelection 9 files "D" true {["x" := true]}
  = Some {["x" := true; "D" := true; "a" := true; "b" := true; "c" := true]}
  /\ handleRowSelection 9 files "D" false
       {["x" := true; "D" := true; "a" := true; "b" := true; "c" := true]}
     = Some {["x" := true]}
  /\ exists fuel0 k ds,
       ds = Spec.levels (childrenMap files) k ["D"]
       /\ (forall i, In i ds <-> exists f, In f files /\ id f = i /\ Spec.under D f = true)
       /\ forall fuel prev, (fuel0 <= fuel)%nat ->
            getAllDescendantIds fuel files "D" = Some ds
            /\ exists selOn selOff,
                 handleRowSelection fuel files "D" true prev = Some selOn
                 /\ handleRowSelection fuel files "D" false prev = Some selOff
                 /\ forall i,
                      (i = "D" \/ In i ds ->
                       objTruthy selOn i = true
                       /\ (i <> "__proto__" -> selOn !! i = Some true)
                       /\ selOff !! i = None
                       /\ objTruthy selOff i = inherited i)
                      /\ (~ (i = "D" \/ In i ds) ->
                          selOn !! i = prev !! i /\ selOff !! i = prev !! i).
Proof.
  intros D a b c x files.
  split; [by vm_compute|]. split; [by vm_compute|].
  apply (select_directory_exact files D).
  - simpl. repeat (apply NoDup_cons; split; [by apply (bool_decide_unpack _)|]).
    by apply NoDup_nil.
  - by left.
  - reflexivity.
Defined.
End SelectionClaims.

(** ** The materializer *)

Section MaterializerClaims.
Import FileTree.

Variable st : State.
Variable statusMap : gmap string string.

(** The row of one file, its children built with [fuel]. *)
Let buildRow (fuel lvl : nat) (f : FileItem) : option TreeItem :=
  kids ← match Spec.visibleFragment st f with
         | Some data => buildFileTree st statusMap fuel data (S lvl)
         | None => Some []
         end;
  Some (Spec.rowOf st statusMap lvl f kids).

Lemma buildFileTree_rows fuel files lvl :
  buildFileTree st statusMap (S fuel) files lvl = mapM (buildRow fuel lvl) files.
Proof.
  simpl. induction files as [|f l IH]; [reflexivity|].
  cbn [mapM]. rewrite IH. f_equal.
  unfold buildRow, Spec.visibleFragment, Spec.rowOf.
  destruct (isDirectory f && bool_decide (id f ∈ expandedFolders st)
            && negb (bool_decide (id f ∈ loadingFolders st))); [|reflexivity].
  by destruct (queryCache st !! id f).
Qed.

(** What [buildFileTree] returns is the composed tree. *)
Lemma buildFileTree_composed fuel : forall files lvl tree,
  buildFileTree st statusMap fuel files lvl = Some tree ->
  Spec.Composed st statusMap lvl files tree.
Proof.
  induction fuel as [|fuel IH]; intros files lvl tree; [discriminate|].
  rewrite buildFileTree_rows. intros H. apply mapM_Some_1 in H.
  induction H as [|f t l k Hrow _ IHl]; [constructor|].
  unfold buildRow in Hrow.
  destruct (Spec.visibleFragment st f) as [data|] eqn:Hv.
  - destruct (buildFileTree st statusMap fuel data (S lvl)) as [kids|] eqn:Hk;
      [|discriminate].
    injection Hrow as <-. constructor; [|done]. rewrite Hv. by apply IH.
  - injection Hrow as <-. constructor; [|done]. rewrite Hv. constructor.
Qed.

(** Fuel beyond the depth of the visible fragments is enough. *)
Lemma buildFileTree_total n : forall files lvl,
  Spec.depthWithin st n files = true ->
  is_Some (buildFileTree st statusMap (S n) files lvl).
Proof.
  induction n as [|n IH]; intros files lvl Hd;
    rewrite buildFileTree_rows; apply mapM_is_Some, Forall_forall;
    intros f Hf%list_elem_of_In; cbn [Spec.depthWithin] in Hd;
    rewrite forallb_forall in Hd; specialize (Hd f Hf);
    unfold compose, buildRow;
    destruct (Spec.visibleFragment st f) as [data|]; try discriminate;
    try by eexists.
  destruct (IH data (S lvl) Hd) as [kids Hk]. rewrite Hk. by eexists.
Qed.

Lemma composed_leveled lvl files tree :
  Spec.Composed st statusMap lvl files tree ->
  forallb (Spec.leveled lvl) tree = true.
Proof.
  induction 1 as [|lvl f rest kids trest _ IHk _ IHr]; [reflexivity|].
  simpl. by rewrite Nat.eqb_refl, IHk, IHr.
Qed.
End MaterializerClaims.

Lemma TreeItem_children_ind (P : TreeItem -> Prop) :
  (forall f e l ch lv, Forall P ch -> P (mkTreeItem f e l ch lv)) ->
  forall t, P t.
Proof.
  intros H. fix IH 1. intros [f e l ch lv]. apply H.
  induction ch as [|c ch IHch]; constructor; [apply IH | exact IHch].
Qed.

Lemma traverse_preorder items : forall result,
  FileTree.traverse items result = result ++ flat_map Spec.preorder items.
Proof.
  assert (forall t result, FileTree.traverseItem t result = result ++ Spec.preorder t) as Hitem.
  { induction t as [f e l ch lv IH] using TreeItem_children_ind. intros result.
    assert (forall acc, foldl (fun res it => FileTree.traverseItem it res) acc ch
                        = acc ++ flat_map Spec.preorder ch) as Hfold.
    { induction IH as [|c ch Hc _ IHch]; intros acc; simpl.
      - by rewrite app_nil_r.
      - by rewrite Hc, IHch, <- app_assoc. }
    cbn [FileTree.traverseItem Spec.preorder].
    destruct ch as [|c ch]; [reflexivity|].
    rewrite Hfold, <- app_assoc. reflexivity. }
  unfold FileTree.traverse.
  induction items as [|t items IH]; intros result; simpl.
  - by rewrite app_nil_r.
  - by rewrite Hitem, IH, <- app_assoc.
Qed.

(** C9. Whatever the root listing, the cache and the sets of expanded and
    loading folders, when the visible fragments nest no deeper than [n],
    [buildFileTree] returns (with fuel [n + 1]) the composed tree: each row
    carries as children the composed tree of its cached fragment when it is
    a directory that is expanded and not loading, and no children otherwise;
    the level of every row is its depth, 0 at the root; and [flattenTree]
    lists the rows in pre-order, each row followed at once by the rows under
    it. *)
Theorem materializer_preorder st statusMap rootFiles n :
  Spec.depthWithin st n rootFiles = true ->
  exists tree,
    FileTree.buildFileTree st statusMap (S n) rootFiles 0 = Some tree
    /\ Spec.Composed st statusMap 0 rootFiles tree
    /\ forallb (Spec.leveled 0) tree = true
    /\ FileTree.flattenTree tree = flat_map Spec.preorder tree.
Proof.
  intros Hd.
  destruct (buildFileTree_total st statusMap n rootFiles 0%nat Hd) as [tree Ht].
  exists tree. split; [exact Ht|].
  pose proof (buildFileTree_composed st statusMap _ _ _ _ Ht) as Hc.
  split; [exact Hc|]. split; [by eapply composed_leveled|].
  apply (traverse_preorder tree []).
Qed.

Lemma materializer_preorder_witness :
  let D := mkFile "D" "D" "directory" None in
  let E := mkFile "E" "D/E" "directory" None in
  let a := mkFile "a" "D/a" "file" (Some "indexed") in
  let b := mkFile "b" "D/E/b" "file" None in
  let c := mkFile "c" "c" "file" None in
  let st := FileTree.mkState {["D"; "E"]} ∅ ∅ {["D" := [E; a]; "E" := [b]]} in
  (map (fun t => (id (file t), level t)) ∘ FileTree.flattenTree)
    <$> FileTree.buildFileTree st ∅ 3 [D; c] 0
  = Some [("D", 0); ("E", 1); ("b", 2); ("a", 1); ("c", 0)]%nat
  /\ exists tree,
       FileTree.buildFileTree st ∅ 3 [D; c] 0 = Some tree
       /\ Spec.Composed st ∅ 0 [D; c] tree
       /\ forallb (Spec.leveled 0) tree = true
       /\ FileTree.flattenTree tree = flat_map Spec.preorder tree.
Proof.
  intros D E a b c st. split; [by vm_compute|].
  apply (materializer_preorder st ∅ [D; c] 2). by vm_compute.
Defined.

(** * Further properties of the hooks *)

(** ** The status map and the merge *)

Section MergeMore.
Import FileTree.

Lemma statusMap_fold_lookup {A} (key : A -> string) (val : A -> string) (l : list A) i :
  foldl (fun m r => <[key r := val r]> m) (∅ : gmap string string) l !! i
  = val <$> List.find (fun r => String.eqb (key r) i) (rev l).
Proof.
  induction l as [|r l IH] using rev_ind; [simpl; by rewrite lookup_empty|].
  rewrite foldl_app, rev_app_distr. simpl. rewrite lookup_insert.
  case_decide as E.
  - subst i. by rewrite String.eqb_refl.
  - apply String.eqb_neq in E. by rewrite E.
Qed.

(** X1. The map of [fetchKBStatusForFolder] is empty without a knowledge
    base, when the listing throws and when it has no data; otherwise its
    entry at an id is the status of the last resource listed with this id,
    "unknown" standing for a missing or empty status, and it has no entry
    at an id that is not listed. *)
Theorem fetch_status_lookup kbId resp i :
  fetchKBStatusForFolder kbId resp !! i
  = if kbIdPresent kbId then
      match resp with
      | KBReturns (Some data) =>
          (fun r => statusOrUnknown (rstatus r))
            <$> List.find (fun r => String.eqb (rid r) i) (rev data)
      | _ => None
      end
    else None.
Proof.
  unfold fetchKBStatusForFolder. destruct (kbIdPresent kbId); simpl;
    [|by rewrite lookup_empty].
  destruct resp as [|[data|]]; try by rewrite lookup_empty.
  apply (statusMap_fold_lookup rid (fun r => statusOrUnknown (rstatus r))).
Qed.

Lemma mergeStatus_idempotent m f : mergeStatus m (mergeStatus m f) = mergeStatus m f.
Proof.
  unfold mergeStatus, withStatus, js_or. simpl.
  destruct (m !! id f) as [s|]; [|reflexivity].
  by destruct (truthy s).
Qed.

(** X2. Merging the same status map a second time changes nothing: the
    cache and the result of the second merge are those of the first. *)
Theorem merge_twice folderId m cache :
  let out := updateCachedFilesWithStatus folderId m cache in
  updateCachedFilesWithStatus folderId m (out.1) = out.
Proof.
  unfold updateCachedFilesWithStatus.
  destruct (cache !! folderId) as [data|] eqn:E; simpl; [|by rewrite E].
  rewrite lookup_insert_eq, insert_insert_eq, map_map.
  rewrite (map_ext _ (mergeStatus m)) by apply mergeStatus_idempotent.
  reflexivity.
Qed.

(** X3. A merge into the fragment of a folder leaves the fragments of all
    other folders as they are, and keeps the ids, names and types of the
    files of the fragment, in their order; when the folder has no cached
    fragment the cache is unchanged and the merge reports no file, nothing
    pending and no error. *)
Theorem merge_keeps_fragment folderId m cache other :
  let out := updateCachedFilesWithStatus folderId m cache in
  (other <> folderId -> out.1 !! other = cache !! other)
  /\ map id (updatedFiles out.2) = map id (default [] (cache !! folderId))
  /\ map name (updatedFiles out.2) = map name (default [] (cache !! folderId))
  /\ map type (updatedFiles out.2) = map type (default [] (cache !! folderId))
  /\ (cache !! folderId = None -> out = (cache, mkMerged [] false false)).
Proof.
  unfold updateCachedFilesWithStatus.
  destruct (cache !! folderId) as [data|] eqn:E; simpl.
  - split; [intros Hne; by rewrite lookup_insert_ne|].
    rewrite !map_map. simpl. repeat split; try done.
  - repeat split; done.
Qed.

Lemma merge_keeps_fragment_witness :
  let a := mkFile "a" "F/a" "file" None in
  let cache : gmap string (list FileItem) := {["F" := [a]; "G" := [a]]} in
  let m : gmap string string := {["a" := "indexed"]} in
  (updateCachedFilesWithStatus "F" m cache).1 !! "G" = Some [a]
  /\ updateCachedFilesWithStatus "H" m cache = (cache, mkMerged [] false false).
Proof.
  intros a cache m.
  destruct (merge_keeps_fragment "F" m cache "G") as (H & _).
  destruct (merge_keeps_fragment "H" m cache "G") as (_ & _ & _ & _ & H').
  split; [rewrite H; [reflexivity | discriminate] | apply H'; reflexivity].
Defined.
End MergeMore.

(** ** Expansion, collapse and polls of a folder *)

Section ToggleMore.
Import FileTree.

Lemma toastAfterMerge_sets rs folderId m st :
  let out := toastAfterMerge rs folderId m st in
  queryCache (out.1) = queryCache st
  /\ expandedFolders (out.1) = expandedFolders st
  /\ loadingFolders (out.1) = loadingFolders st.
Proof.
  unfold toastAfterMerge.
  destruct (hasErrors m && negb (bool_decide (folderId ∈ errorToastShown rs))); done.
Qed.

(** The state in which an expansion ends, before [finally]. *)
Lemma toggleFolder_expand_sets rs kbId folderId data resp st :
  folderId ∉ expandedFolders rs ->
  let o := toggleFolder rs kbId folderId (DriveReturns data) resp st in
  expandedFolders (state o) = expandedFolders st ∪ {[folderId]}
  /\ loadingFolders (state o) = (loadingFolders st ∪ {[folderId]}) ∖ {[folderId]}.
Proof.
  intros Hn. unfold toggleFolder. rewrite bool_decide_eq_false_2 by done.
  destruct (kbIdPresent kbId && _); [|done].
  destruct (updateCachedFilesWithStatus _ _ _) as [c m].
  match goal with |- context [toastAfterMerge ?a ?b ?c ?d] =>
    pose proof (toastAfterMerge_sets a b c d) as (_ & He & Hl);
    destruct (toastAfterMerge a b c d) as [st' ts] end.
  simpl in *. by rewrite He, Hl.
Qed.

(** X4. However an expansion ends, the folder is not left loading. It is
    added to the expanded folders when its listing was fetched; when the
    fetch of the listing throws, the expanded folders, the folders notified
    and the cache stay as they were, no toast is raised and no poll is
    scheduled. *)
Theorem expansion_clears_loading rs kbId folderId drive resp st :
  folderId ∉ expandedFolders rs ->
  let o := toggleFolder rs kbId folderId drive resp st in
  (folderId ∉ loadingFolders (state o))
  /\ (forall g, g <> folderId -> g ∈ loadingFolders (state o) <-> g ∈ loadingFolders st)
  /\ match drive with
     | DriveReturns _ => expandedFolders (state o) = expandedFolders st ∪ {[folderId]}
     | DriveThrows =>
         expandedFolders (state o) = expandedFolders st
         /\ errorToastShown (state o) = errorToastShown st
         /\ queryCache (state o) = queryCache st
         /\ toasts o = [] /\ rescheduled o = false
     end.
Proof.
  intros Hn. destruct drive as [|data].
  - unfold toggleFolder. rewrite bool_decide_eq_false_2 by done. simpl.
    split; [set_solver|]. split; [set_solver|]. done.
  - destruct (toggleFolder_expand_sets rs kbId folderId data resp st Hn) as [He Hl].
    cbv zeta. rewrite Hl. split; [set_solver|]. split; [set_solver|]. exact He.
Qed.

Lemma expansion_clears_loading_witness :
  let st := mkState ∅ {["F"; "G"]} ∅ ∅ in
  let o := toggleFolder st None "F" DriveThrows KBThrows st in
  ("F" ∉ loadingFolders (state o)) /\ expandedFolders (state o) = ∅.
Proof.
  intros st o.
  destruct (expansion_clears_loading st None "F" DriveThrows KBThrows st)
    as (H1 & _ & H2 & _); [set_solver|].
  split; [exact H1 | exact H2].
Defined.

(** X5. Without a knowledge base an expansion caches the listing as it was
    fetched, raises no toast, schedules no poll and records no folder as
    notified. *)
Theorem expansion_without_kb rs kbId folderId data resp st :
  kbIdPresent kbId = false ->
  folderId ∉ expandedFolders rs ->
  let o := toggleFolder rs kbId folderId (DriveReturns (Some data)) resp st in
  queryCache (state o) = <[folderId := data]> (queryCache st)
  /\ toasts o = [] /\ rescheduled o = false
  /\ errorToastShown (state o) = errorToastShown st.
Proof.
  intros Hkb Hn. unfold toggleFolder.
  rewrite bool_decide_eq_false_2 by done. by rewrite Hkb.
Qed.

Lemma expansion_without_kb_witness :
  let a := mkFile "a" "F/a" "file" (Some "error") in
  let st := mkState ∅ ∅ ∅ ∅ in
  let o := toggleFolder st (Some "") "F" (DriveReturns (Some [a]))
             (KBReturns (Some [mkResource "a" (Some "pending")])) st in
  queryCache (state o) !! "F" = Some [a] /\ toasts o = [] /\ rescheduled o = false.
Proof.
  intros a st o.
  destruct (expansion_without_kb st (Some "") "F" [a]
              (KBReturns (Some [mkResource "a" (Some "pending")])) st)
    as (Hc & Ht & Hr & _); [reflexivity | set_solver |].
  fold o in Hc, Ht, Hr. rewrite Hc. split; [by rewrite lookup_insert_eq|]. done.
Defined.

(** X6. With a knowledge base, the expansion of a folder with a listing that
    is not empty caches the listing merged with the status map; it schedules
    a poll exactly when a file of the merged listing is pending; it raises
    the toast exactly when a file of the merged listing is in error and the
    render has not recorded the folder. *)
Theorem expansion_with_kb rs kbId folderId data resp st :
  kbIdPresent kbId = true ->
  data <> [] ->
  folderId ∉ expandedFolders rs ->
  let merged := map (mergeStatus (fetchKBStatusForFolder kbId resp)) data in
  let o := toggleFolder rs kbId folderId (DriveReturns (Some data)) resp st in
  queryCache (state o) = <[folderId := merged]> (queryCache st)
  /\ rescheduled o = existsb (fun f => isFile f && hasStatus "pending" f) merged
  /\ (toasts o = [folderId]
      <-> existsb (fun f => isFile f && hasStatus "error" f) merged = true
          /\ (folderId ∉ errorToastShown rs))
  /\ (toasts o = [] \/ toasts o = [folderId]).
Proof.
  intros Hkb Hdata Hn merged o. subst o. unfold toggleFolder.
  rewrite bool_decide_eq_false_2 by done. rewrite Hkb.
  destruct data as [|f0 data]; [done|].
  change (true && (0 <? length (default [] (Some (f0 :: data))))%nat) with true.
  cbv iota. unfold updateCachedFilesWithStatus. cbn [queryCache setQueryCache
    setLoadingFolders]. rewrite lookup_insert_eq. fold merged.
  rewrite insert_insert_eq.
  match goal with |- context [toastAfterMerge ?a ?b ?c ?d] =>
    pose proof (toastAfterMerge_sets a b c d) as (Hc & _ & _);
    pose proof (merge_toast_iff a b c d) as Hiff;
    pose proof (merge_toast_cases a b c d) as (_ & _ & _ & Hcases);
    destruct (toastAfterMerge a b c d) as [st' ts] end.
  simpl in *. split; [by rewrite Hc|]. split; [reflexivity|]. split; [exact Hiff|].
  destruct Hcases as [[-> _]|[-> _]]; auto.
Qed.

Lemma expansion_with_kb_witness :
  let a := mkFile "a" "F/a" "file" None in
  let st := mkState ∅ ∅ ∅ ∅ in
  let resp := KBReturns (Some [mkResource "a" (Some "pending")]) in
  let o := toggleFolder st (Some "kb") "F" (DriveReturns (Some [a])) resp st in
  rescheduled o = true
  /\ queryCache (state o) !! "F" = Some [mkFile "a" "F/a" "file" (Some "pending")].
Proof.
  intros a st resp o.
  destruct (expansion_with_kb st (Some "kb") "F" [a] resp st)
    as (Hc & Hr & _); [reflexivity | discriminate | set_solver |].
  fold o in Hc, Hr. split; [by rewrite Hr|]. rewrite Hc. by rewrite lookup_insert_eq.
Defined.

(** X7. A folder expanded and then collapsed (the second click in a render
    that shows it expanded) is out of the expanded folders and not loading,
    and the cache still holds the listing the expansion stored; the collapse
    raises no toast and schedules no poll, whatever the network would
    answer. *)
Theorem expand_then_collapse rs rs' kbId folderId data resp drive' resp' st :
  folderId ∉ expandedFolders rs ->
  folderId ∈ expandedFolders rs' ->
  let o := toggleFolder rs kbId folderId (DriveReturns data) resp st in
  let o' := toggleFolder rs' kbId folderId drive' resp' (state o) in
  expandedFolders (state o') = expandedFolders st ∖ {[folderId]}
  /\ (folderId ∉ loadingFolders (state o'))
  /\ queryCache (state o') = queryCache (state o)
  /\ errorToastShown (state o') = errorToastShown (state o)
  /\ toasts o' = [] /\ rescheduled o' = false.
Proof.
  intros Hn Hin o o'.
  destruct (toggleFolder_expand_sets rs kbId folderId data resp st Hn) as [He Hl].
  fold o in He, Hl. subst o'. clearbody o. unfold toggleFolder.
  rewrite bool_decide_eq_true_2 by done. simpl.
  rewrite He, Hl. split; [set_solver|]. split; [set_solver|]. done.
Qed.

Lemma expand_then_collapse_witness :
  let a := mkFile "a" "F/a" "file" None in
  let st := mkState ∅ ∅ ∅ ∅ in
  let o := toggleFolder st None "F" (DriveReturns (Some [a])) KBThrows st in
  let o' := toggleFolder (state o) None "F" DriveThrows KBThrows (state o) in
  expandedFolders (state o') = ∅ ∖ {["F"]} /\ queryCache (state o') !! "F" = Some [a].
Proof.
  intros a st o o'.
  destruct (expand_then_collapse st (state o) None "F" (Some [a]) KBThrows
              DriveThrows KBThrows st) as (He & _ & Hc & _);
    [set_solver | apply (bool_decide_unpack _); by vm_compute |].
  split; [exact He|]. fold o o' in Hc. rewrite Hc. reflexivity.
Defined.

(** X8. A poll does one of two things. When a status of the fresh map is
    "pending" it schedules the next poll and changes nothing: it merges no
    status into the cache and raises no toast. Otherwise it schedules
    nothing and stores the merged fragment of the folder. *)
Theorem poll_merges_or_reschedules rs kbId resp folderId st :
  let o := pollFolderStatus rs kbId resp folderId st in
  let m := fetchKBStatusForFolder kbId resp in
  (rescheduled o = true -> state o = st /\ toasts o = [])
  /\ (rescheduled o = false ->
      queryCache (state o) = (updateCachedFilesWithStatus folderId m (queryCache st)).1
      /\ expandedFolders (state o) = expandedFolders st
      /\ loadingFolders (state o) = loadingFolders st)
  /\ (rescheduled o = existsb (fun s => String.eqb s "pending") (map_to_list m).*2).
Proof.
  intros o m. subst o. unfold pollFolderStatus. fold m.
  destruct (existsb _ (map_to_list m).*2); simpl.
  - split; [done|]. split; [discriminate | done].
  - destruct (updateCachedFilesWithStatus folderId m (queryCache st)) as [c mg] eqn:E.
    match goal with |- context [toastAfterMerge ?a ?b ?c ?d] =>
      pose proof (toastAfterMerge_sets a b c d) as (Hc & He & Hl);
      destruct (toastAfterMerge a b c d) as [st' ts] end.
    simpl in *. split; [discriminate|]. split; [|done]. intros _. by rewrite Hc, He, Hl.
Qed.

Lemma poll_merges_or_reschedules_witness :
  let a := mkFile "a" "F/a" "file" None in
  let st := mkState ∅ ∅ ∅ {["F" := [a]]} in
  let resp := KBReturns (Some [mkResource "a" (Some "indexed");
                               mkResource "b" (Some "pending")]) in
  let o := pollFolderStatus st (Some "kb") resp "F" st in
  rescheduled o = true /\ queryCache (state o) !! "F" = Some [a].
Proof.
  intros a st resp o.
  destruct (poll_merges_or_reschedules st (Some "kb") resp "F" st) as (H & _).
  fold o in H. destruct H as [Hs _]; [reflexivity|].
  split; [reflexivity|]. by rewrite Hs.
Defined.

(** X9. Whether the poll that ends a chain raises the toast is decided by
    the render the poll was created in: when the merged fragment has an
    error file and that render has not recorded the folder, the toast is
    raised, also when the current state has recorded the folder since. *)
Theorem poll_toast_reads_render rs kbId resp folderId data st :
  queryCache st !! folderId = Some data ->
  existsb (fun s => String.eqb s "pending")
    (map_to_list (fetchKBStatusForFolder kbId resp)).*2 = false ->
  existsb (fun f => isFile f && hasStatus "error" f)
    (map (mergeStatus (fetchKBStatusForFolder kbId resp)) data) = true ->
  folderId ∉ errorToastShown rs ->
  toasts (pollFolderStatus rs kbId resp folderId st) = [folderId].
Proof.
  intros Hc Hp He Hn. unfold pollFolderStatus. rewrite Hp.
  unfold updateCachedFilesWithStatus. rewrite Hc.
  unfold toastAfterMerge. cbn [hasErrors]. rewrite He.
  by rewrite bool_decide_eq_false_2.
Qed.

Lemma poll_toast_reads_render_witness :
  let a := mkFile "a" "F/a" "file" None in
  let rs := mkState ∅ ∅ ∅ ∅ in
  let st := mkState {["F"]} ∅ {["F"]} {["F" := [a]]} in
  let resp := KBReturns (Some [mkResource "a" (Some "error")]) in
  "F" ∈ errorToastShown st
  /\ toasts (pollFolderStatus rs (Some "kb") resp "F" st) = ["F"].
Proof.
  intros a rs st resp. split; [apply (bool_decide_unpack _); by vm_compute|].
  apply (poll_toast_reads_render rs (Some "kb") resp "F" [a] st);
    [reflexivity | reflexivity | reflexivity | set_solver].
Defined.
End ToggleMore.

(** ** Rows of the tree *)

Section RowsMore.
Import FileTree.

Lemma mapM_agree {A B} (f g : A -> option B) (l : list A) :
  (forall x, In x l -> f x = g x) -> mapM f l = mapM g l.
Proof.
  induction l as [|x l IH]; intros H; [reflexivity|].
  cbn [mapM]. rewrite (H x) by (by left). rewrite IH; [reflexivity|].
  intros y Hy. apply H. by right.
Qed.

Lemma mapM_total {A B} (g : A -> B) (l : list A) :
  mapM (fun x => Some (g x)) l = Some (map g l).
Proof.
  induction l as [|x l IH]; [reflexivity|]. cbn [mapM]. by rewrite IH.
Qed.

(** X10. Below the root level the rows do not depend on the status map of
    the knowledge-base listing: they show the statuses kept in the cache. *)
Theorem nested_rows_ignore_status_map st sm sm' fuel : forall files lvl,
  (0 < lvl)%nat ->
  buildFileTree st sm fuel files lvl = buildFileTree st sm' fuel files lvl.
Proof.
  induction fuel as [|fuel IH]; intros files lvl Hl; [reflexivity|].
  rewrite !buildFileTree_rows. apply mapM_agree. intros f _.
  destruct (Spec.visibleFragment st f) as [data|].
  - rewrite (IH data (S lvl)) by lia.
    destruct (buildFileTree st sm' fuel data (S lvl)); [|reflexivity].
    simpl. unfold Spec.rowOf. by destruct lvl; [lia|].
  - simpl. unfold Spec.rowOf. by destruct lvl; [lia|].
Qed.

Lemma nested_rows_ignore_status_map_witness :
  let a := mkFile "a" "F/a" "file" (Some "pending") in
  let st := mkState ∅ ∅ ∅ ∅ in
  buildFileTree st {["a" := "indexed"]} 1 [a] 1 = buildFileTree st ∅ 1 [a] 1.
Proof.
  intros a st. apply (nested_rows_ignore_status_map st {["a" := "indexed"]} ∅ 1 [a] 1).
  lia.
Defined.

Lemma statusMap_values_truthy data i s :
  KBStatus.statusMap data !! i = Some s -> truthy s = true.
Proof.
  unfold KBStatus.statusMap. destruct data as [resources|]; [|by rewrite lookup_empty].
  rewrite (statusMap_fold_lookup id (fun r => statusOrUnknown (status r))).
  destruct (List.find _ _); [|discriminate]. intros [= <-].
  apply statusOrUnknown_truthy.
Qed.

(** X11. When the visible fragments nest no deeper than [n],
    [buildFileTree] run at the root level with the status map built from the
    knowledge-base listing returns (with fuel [n + 1]) a tree whose rows are
    those of the root files, in their order and at level 0; the row of a
    file shows the status the listing gives for its id ("unknown" when the
    listing gives none) and, when the listing does not hold its id, the
    status of the file itself. *)
Theorem root_rows_show_listing_status st data n files :
  Spec.depthWithin st n files = true ->
  exists tree,
    buildFileTree st (KBStatus.statusMap data) (S n) files 0 = Some tree
    /\ map (fun t => status (file t)) tree
       = map (Spec.mergedStatus (KBStatus.statusMap data)) files
    /\ map (fun t => id (file t)) tree = map id files
    /\ Forall (fun t => level t = 0%nat) tree.
Proof.
  intros Hd.
  destruct (buildFileTree_total st (KBStatus.statusMap data) n files 0%nat Hd)
    as [tree Ht].
  exists tree. split; [exact Ht|].
  apply buildFileTree_composed in Ht. clear Hd.
  remember 0%nat as lvl eqn:Hl.
  induction Ht as [|lvl f rest kids trest _ _ _ IH]; [by repeat split|].
  destruct (IH Hl) as (Hs & Hi & Hlv). simpl.
  rewrite Hs, Hi. subst lvl. simpl. split; [|split; [done | by constructor]].
  f_equal. unfold Spec.mergedStatus, js_or.
  destruct (KBStatus.statusMap data !! id f) as [s|] eqn:E; [|reflexivity].
  by rewrite (statusMap_values_truthy _ _ _ E).
Qed.

Lemma root_rows_show_listing_status_witness :
  let a := mkFile "a" "a" "file" None in
  let b := mkFile "b" "b" "file" (Some "pending") in
  let D := mkFile "D" "D" "directory" None in
  let st := mkState {["D"]} ∅ ∅ {["D" := [mkFile "c" "D/c" "file" None]]} in
  let data := Some [mkFile "a" "a" "file" (Some "indexed")] in
  exists tree,
    buildFileTree st (KBStatus.statusMap data) 2 [a; b; D] 0 = Some tree
    /\ map (fun t => status (file t)) tree = [Some "indexed"; Some "pending"; None].
Proof.
  intros a b D st data.
  destruct (root_rows_show_listing_status st data 1 [a; b; D]) as (tree & Ht & Hs & _);
    [by vm_compute|].
  exists tree. split; [exact Ht|]. rewrite Hs. reflexivity.
Defined.

Lemma flat_map_preorder_leaves (tree : list TreeItem) :
  Forall (fun t => children t = []) tree -> flat_map Spec.preorder tree = tree.
Proof.
  induction 1 as [|t tree Ht _ IH]; [reflexivity|].
  simpl. rewrite IH. destruct t as [f e l ch lv]. simpl in Ht. by subst ch.
Qed.

(** X12. After [collapseAllFolders] the tree built from a root listing is
    that listing: one row for each file, in order, at level 0, not expanded,
    not loading and without children, whatever the cache holds; flattening
    it changes nothing. *)
Theorem collapsed_tree_is_root_listing st0 sm fuel files :
  let st := collapseAllFolders st0 in
  let rows := map (fun f => Spec.rowOf st sm 0 f []) files in
  buildFileTree st sm (S fuel) files 0 = Some rows
  /\ flattenTree rows = rows
  /\ map (fun t => id (file t)) rows = map id files
  /\ Forall (fun t => isExpanded t = false /\ isLoading t = false
                      /\ children t = [] /\ level t = 0%nat) rows.
Proof.
  intros st rows. split; [|split; [|split]].
  - rewrite buildFileTree_rows. subst rows. rewrite <- mapM_total.
    apply mapM_agree. intros f _. unfold Spec.visibleFragment. simpl.
    rewrite bool_decide_eq_false_2 by set_solver. by rewrite andb_false_r.
  - unfold flattenTree. rewrite traverse_preorder. simpl.
    apply flat_map_preorder_leaves. subst rows. rewrite Forall_forall.
    intros t Ht. apply list_elem_of_In, in_map_iff in Ht as (f & <- & _). done.
  - subst rows. rewrite map_map. done.
  - subst rows. rewrite Forall_forall.
    intros t Ht. apply list_elem_of_In, in_map_iff in Ht as (f & <- & _). simpl.
    rewrite !bool_decide_eq_false_2 by set_solver. done.
Qed.
End RowsMore.

(** ** The poll of the knowledge-base listing *)

Section RootPollMore.

(** X13. When [allFilesSettled] holds of a listing, the poll effect run on
    this listing stops the poll, at any time and in any state. *)
Theorem settled_listing_stops_poll data now st :
  KBStatus.allFilesSettled data = true ->
  KBStatus.shouldPoll (KBStatus.pollEffect data now st).1 = false.
Proof.
  destruct data as [resources|]; [|discriminate]. simpl. intros Hall.
  destruct (length resources =? 0)%nat; [reflexivity|].
  destruct (length (List.filter isFile resources) =? 0)%nat; [reflexivity|].
  assert (KBStatus.hasUnsettledFiles (List.filter isFile resources) = false) as ->.
  { unfold KBStatus.hasUnsettledFiles. apply not_true_is_false.
    rewrite existsb_exists. intros (f & Hf & Hu).
    apply filter_In in Hf as [Hf _].
    rewrite forallb_forall in Hall. specialize (Hall f Hf).
    destruct (hasStatus "pending" f), (hasStatus "pending_delete" f); discriminate. }
  destruct (_ && negb (KBStatus.hasShownErrorToast st)); simpl;
    by destruct (KBStatus.MAX_POLL_DURATION <? _).
Qed.

Lemma settled_listing_stops_poll_witness :
  let data := Some [mkFile "a" "a" "file" (Some "indexed");
                    mkFile "b" "b" "file" (Some "error")] in
  KBStatus.shouldPoll
    (KBStatus.pollEffect data 3000 (KBStatus.mkState true 0 false)).1 = false.
Proof.
  intros data. apply (settled_listing_stops_poll data). reflexivity.
Defined.

(** X14. The toast of the poll effect does not depend on the time: it is
    raised exactly when the listing has a file in error and no toast was
    shown before, with or without time-out, and it reports the number of
    files in error (directories not counted). *)
Theorem root_toast_counts_error_files data now st :
  (KBStatus.pollEffect data now st).2
  = let n := length (List.filter (hasStatus "error")
                       (List.filter isFile (default [] data))) in
    if (0 <? n)%nat && negb (KBStatus.hasShownErrorToast st) then [n] else [].
Proof.
  destruct data as [resources|]; [|reflexivity]. simpl.
  destruct (length resources =? 0)%nat eqn:E0.
  { apply Nat.eqb_eq, length_zero_iff_nil in E0. by subst resources. }
  destruct (length (List.filter isFile resources) =? 0)%nat eqn:E1.
  { apply Nat.eqb_eq, length_zero_iff_nil in E1. by rewrite E1. }
  destruct (_ && negb (KBStatus.hasShownErrorToast st)); simpl;
    destruct (KBStatus.MAX_POLL_DURATION <? _); simpl; try reflexivity;
    by destruct (negb _).
Qed.

Lemma pollEffect_flags data now st :
  let out := KBStatus.pollEffect data now st in
  (KBStatus.shouldPoll st = false -> KBStatus.shouldPoll (out.1) = false)
  /\ (KBStatus.hasShownErrorToast st = true -> KBStatus.hasShownErrorToast (out.1) = true)
  /\ KBStatus.pollingStartTime (out.1) = KBStatus.pollingStartTime st.
Proof.
  unfold KBStatus.pollEffect. destruct data as [resources|]; [|done].
  destruct (length resources =? 0)%nat; [done|].
  destruct (length (List.filter isFile resources) =? 0)%nat; [done|].
  destruct (_ && negb (KBStatus.hasShownErrorToast st)); simpl;
    destruct (KBStatus.MAX_POLL_DURATION <? _); simpl; try done;
    by destruct (negb _).
Qed.

(** X15. Over the ticks of a mount the poll never starts again once it has
    stopped, the mark of the toast shown is never taken back, and the start
    time never moves. *)
Theorem root_poll_stop_is_final ticks : forall st,
  let out := Session.runRoot ticks st in
  (KBStatus.shouldPoll st = false -> KBStatus.shouldPoll (out.1) = false)
  /\ (KBStatus.hasShownErrorToast st = true -> KBStatus.hasShownErrorToast (out.1) = true)
  /\ KBStatus.pollingStartTime (out.1) = KBStatus.pollingStartTime st.
Proof.
  induction ticks as [|[data now] ticks IH]; intros st; [done|]. simpl.
  pose proof (pollEffect_flags data now st) as (H1 & H2 & H3).
  destruct (KBStatus.pollEffect data now st) as [st1 ts1]. simpl in *.
  destruct (IH st1) as (I1 & I2 & I3).
  destruct (Session.runRoot ticks st1) as [st2 ts2]. simpl in *.
  split; [auto|]. split; [auto | congruence].
Qed.

Lemma root_poll_stop_is_final_witness :
  let pendingFile := Some [mkFile "a" "a" "file" (Some "pending")] in
  KBStatus.shouldPoll
    (Session.runRoot [(pendingFile, 1000); (pendingFile, 4000)]
       (KBStatus.mkState false 0 false)).1 = false.
Proof.
  intros pendingFile.
  destruct (root_poll_stop_is_final [(pendingFile, 1000); (pendingFile, 4000)]
              (KBStatus.mkState false 0 false)) as (H & _).
  apply H. reflexivity.
Defined.

Lemma countStatus_fold resources : forall c,
  let c' := foldl KBStatus.countStatus c resources in
  KBStatus.indexed c' = (KBStatus.indexed c + Spec.countOf "indexed" resources)%nat
  /\ KBStatus.pending c' = (KBStatus.pending c + Spec.countOf "pending" resources)%nat
  /\ KBStatus.pending_delete c'
     = (KBStatus.pending_delete c + Spec.countOf "pending_delete" resources)%nat
  /\ KBStatus.error c' = (KBStatus.error c + Spec.countOf "error" resources)%nat
  /\ KBStatus.unknown c' = (KBStatus.unknown c + Spec.countOf "unknown" resources)%nat.
Proof.
  induction resources as [|r l IH]; intros c.
  - unfold Spec.countOf. simpl. repeat split; lia.
  - simpl. destruct (IH (KBStatus.countStatus c r)) as (H1 & H2 & H3 & H4 & H5).
    rewrite H1, H2, H3, H4, H5. clear. unfold Spec.countOf, KBStatus.countStatus. simpl.
    generalize (FileTree.statusOrUnknown (status r)) as s. intros s.
    destruct (String.eqb_spec s "indexed") as [->|?]; [simpl; repeat split; lia|].
    destruct (String.eqb_spec s "pending") as [->|?]; [simpl; repeat split; lia|].
    destruct (String.eqb_spec s "pending_delete") as [->|?]; [simpl; repeat split; lia|].
    destruct (String.eqb_spec s "error") as [->|?]; [simpl; repeat split; lia|].
    destruct (String.eqb_spec s "unknown") as [->|?]; simpl; repeat split; lia.
Qed.

(** X16. Each counter of [statusCounts] is the number of resources of the
    listing with this status, a missing or empty status counting as
    "unknown"; a resource with any other status is counted nowhere, so the
    counters add up to at most the length of the listing; without a listing
    all counters are 0. *)
Theorem status_counts_exact data :
  let c := KBStatus.statusCounts data in
  let resources := default [] data in
  KBStatus.indexed c = Spec.countOf "indexed" resources
  /\ KBStatus.pending c = Spec.countOf "pending" resources
  /\ KBStatus.pending_delete c = Spec.countOf "pending_delete" resources
  /\ KBStatus.error c = Spec.countOf "error" resources
  /\ KBStatus.unknown c = Spec.countOf "unknown" resources
  /\ (KBStatus.indexed c + KBStatus.pending c + KBStatus.pending_delete c
      + KBStatus.error c + KBStatus.unknown c <= length resources)%nat.
Proof.
  intros c resources. subst c. unfold KBStatus.statusCounts. fold resources.
  destruct (countStatus_fold resources (KBStatus.mkCounts 0 0 0 0 0))
    as (H1 & H2 & H3 & H4 & H5).
  simpl in *. rewrite H1, H2, H3, H4, H5. repeat split.
  clear. unfold Spec.countOf. induction resources as [|r l IH]; simpl; [lia|].
  generalize (FileTree.statusOrUnknown (status r)) as s. intros s.
  destruct (String.eqb_spec s "indexed") as [->|?]; [simpl; lia|].
  destruct (String.eqb_spec s "pending") as [->|?]; [simpl; lia|].
  destruct (String.eqb_spec s "pending_delete") as [->|?]; [simpl; lia|].
  destruct (String.eqb_spec s "error") as [->|?]; [simpl; lia|].
  destruct (String.eqb_spec s "unknown") as [->|?]; simpl; lia.
Qed.

(** X17. In the earlier version of the hook the poll effect, given a listing
    with a file before the time-out, leaves the state as it is whatever the
    statuses: the poll of a settled listing goes on. It stops on an empty
    listing, on a listing without files and past the time-out. *)
Theorem earlier_poll_ignores_settlement resources now st :
  let out := KBStatusV1.pollEffect (Some resources) now st in
  (List.filter isFile resources <> [] ->
   now - KBStatusV1.pollingStartTime st <= KBStatusV1.MAX_POLL_DURATION ->
   out = st)
  /\ (List.filter isFile resources = [] -> KBStatusV1.shouldPoll out = false)
  /\ (KBStatusV1.MAX_POLL_DURATION < now - KBStatusV1.pollingStartTime st ->
      KBStatusV1.shouldPoll out = false).
Proof.
  intros out. subst out. unfold KBStatusV1.pollEffect.
  destruct (length resources =? 0)%nat eqn:E0.
  { apply Nat.eqb_eq, length_zero_iff_nil in E0. subst resources. by repeat split. }
  destruct (length (List.filter isFile resources) =? 0)%nat eqn:E1.
  { apply Nat.eqb_eq, length_zero_iff_nil in E1. by repeat split. }
  apply Nat.eqb_neq in E1. split; [|split].
  - intros _ Ht. apply Z.ltb_ge in Ht. rewrite Ht. by destruct (_ && _).
  - intros Hnil. by rewrite Hnil in E1.
  - intros Ht. apply Z.ltb_lt in Ht. by rewrite Ht.
Qed.

Lemma earlier_poll_ignores_settlement_witness :
  let resources := [mkFile "a" "a" "file" (Some "indexed")] in
  let st := KBStatusV1.mkState true 0 in
  KBStatusV1.pollEffect (Some resources) 3000 st = st
  /\ KBStatusV1.shouldPoll (KBStatusV1.pollEffect (Some resources) 120001 st) = false.
Proof.
  intros resources st.
  destruct (earlier_poll_ignores_settlement resources 3000 st) as (H & _).
  destruct (earlier_poll_ignores_settlement resources 120001 st) as (_ & _ & H').
  split; [apply H; [discriminate | by vm_compute] | apply H'; by vm_compute].
Defined.
End RootPollMore.

(** ** Deletion *)

Section DeletionMore.
Import Deletion.

Lemma plan_candidates selectedIds allFiles f :
  In f (uniqueFiles selectedIds allFiles) -> Spec.candidate selectedIds allFiles f.
Proof.
  unfold uniqueFiles. rewrite removeDuplicates_dedup. intros Hf.
  apply filesToDelete_candidates.
  by apply (dedupById_spec (filesToDelete selectedIds allFiles) []).
Qed.

Lemma plan_covers selectedIds allFiles f :
  NoDup (map id allFiles) ->
  Spec.candidate selectedIds allFiles f -> In f (uniqueFiles selectedIds allFiles).
Proof.
  intros Hnd Hf. unfold uniqueFiles. rewrite removeDuplicates_dedup.
  destruct (dedupById_spec (filesToDelete selectedIds allFiles) []) as (_ & Hsub & Hcov).
  destruct (Hcov f) as [[]|(g & Hg & E)]; [by apply filesToDelete_candidates|].
  assert (g = f) as <-; [|done].
  apply (NoDup_ids_inj allFiles); [done| |by eapply candidate_known|done].
  eapply candidate_known, filesToDelete_candidates. by apply Hsub.
Qed.

Lemma candidate_indexed selectedIds allFiles f :
  Spec.candidate selectedIds allFiles f -> Spec.indexedFile f = true.
Proof. by intros (i & item & _ & _ & [[? ->]|(_ & _ & ? & _)]). Qed.

Lemma dedupById_nil l : Spec.dedupById [] l = [] <-> l = [].
Proof.
  destruct l as [|x l]; [done|]. simpl.
  destruct (in_dec string_dec (id x) []) as [[]|_]. done.
Qed.

Lemma plan_of_one allFiles item :
  Spec.knownNode allFiles (id item) = Some item ->
  uniqueFiles [id item] allFiles
  = Spec.dedupById []
      (if Spec.indexedFile item then [item]
       else if isDirectory item then
         List.filter (fun f => Spec.indexedFile f && Spec.under item f) allFiles
       else []).
Proof.
  intros Hk. unfold uniqueFiles. rewrite removeDuplicates_dedup, filesToDelete_flat_map.
  simpl. rewrite app_nil_r. unfold candidatesOf. by rewrite fileMapOf_lookup, Hk.
Qed.

(** X18. The two predicates of the buttons agree with the plan. For a known
    node, [canDeleteFile] holds exactly when deleting the node alone plans
    the node itself; for a known directory, [canDeleteFolder] holds exactly
    when deleting it plans at least one file; [canDeleteFolder] never holds
    of a node that is not a directory. *)
Theorem can_delete_agrees_with_plan allFiles item :
  Spec.knownNode allFiles (id item) = Some item ->
  (canDeleteFile item = true <-> uniqueFiles [id item] allFiles = [item])
  /\ (isDirectory item = true ->
      (canDeleteFolder item allFiles = true <-> uniqueFiles [id item] allFiles <> []))
  /\ (isDirectory item = false -> canDeleteFolder item allFiles = false).
Proof.
  intros Hk. rewrite (plan_of_one allFiles item Hk).
  change (canDeleteFile item) with (Spec.indexedFile item).
  split; [|split].
  - destruct (Spec.indexedFile item) eqn:Hidx.
    + split; [intros _|done]. simpl. by destruct (in_dec string_dec (id item) []).
    + split; [discriminate|]. intros Hplan.
      assert (In item (Spec.dedupById []
                (if isDirectory item then
                   List.filter (fun f => Spec.indexedFile f && Spec.under item f) allFiles
                 else []))) as Hin by (rewrite Hplan; by left).
      apply dedupById_spec in Hin as [Hin _].
      destruct (isDirectory item); [|destruct Hin].
      apply filter_In in Hin as [_ Hp]. apply andb_true_iff in Hp as [Hp _]. congruence.
  - intros Hdir. unfold canDeleteFolder. rewrite Hdir. simpl.
    assert (Spec.indexedFile item = false) as ->
      by (unfold Spec.indexedFile; by rewrite (file_not_directory _ Hdir)).
    rewrite dedupById_nil, existsb_exists. split.
    + intros (f & Hf & Hp) Hnil.
      assert (In f (List.filter (fun f => Spec.indexedFile f && Spec.under item f) allFiles))
        as Hin by (apply filter_In; split; done).
      by rewrite Hnil in Hin.
    + intros Hne.
      destruct (List.filter _ allFiles) as [|f l] eqn:E; [done|].
      assert (In f (f :: l)) as Hin by (by left). rewrite <- E in Hin.
      apply filter_In in Hin as [? ?]. exists f. split; done.
  - intros Hdir. unfold canDeleteFolder. by rewrite Hdir.
Qed.

Lemma can_delete_agrees_with_plan_witness :
  let D := mkFile "D" "D" "directory" None in
  let a := mkFile "a" "D/a" "file" (Some "indexed") in
  let b := mkFile "b" "D/b" "file" (Some "pending") in
  canDeleteFolder D [D; a; b] = true
  /\ uniqueFiles ["D"] [D; a; b] <> []
  /\ (canDeleteFile b = true <-> uniqueFiles ["b"] [D; a; b] = [b]).
Proof.
  intros D a b.
  destruct (can_delete_agrees_with_plan [D; a; b] D eq_refl) as (_ & HD & _).
  destruct (can_delete_agrees_with_plan [D; a; b] b eq_refl) as (Hb & _).
  split; [reflexivity|]. split; [apply HD; reflexivity | exact Hb].
Defined.

Section BackendMore.
Context {World : Type}.
Variable deleteKBResource : string -> string -> World -> World * bool.

(** X19. After the loop of [mutationFn] no candidate is marked as deleting,
    whether its request succeeded or failed, and the marks of all other ids
    are as before the loop. *)
Theorem batch_clears_marks kbId files : forall (l : Loop),
  loopDeleting (mutationFn deleteKBResource kbId files l)
  = loopDeleting l ∖ list_to_set (map id files).
Proof.
  unfold mutationFn. induction files as [|f files IH]; intros l; simpl.
  - set_solver.
  - rewrite IH. unfold deleteOne.
    destruct (deleteKBResource kbId (name f) (loopWorld l)) as [w ok]. simpl.
    set_solver.
Qed.

(** X20. [deleteSelectedFiles] sends its requests for the files of the plan,
    in the order of the plan, each with the knowledge-base id and the name
    of the file, and none without a knowledge base. Hence every request it
    sends is for a known file that is indexed: it never asks to delete a
    directory or a file of another status. *)
Theorem deletion_requests_only_indexed kbId selectedIds allFiles (e : Env World) :
  let e' := deleteSelectedFiles deleteKBResource kbId selectedIds allFiles e in
  calls e'
  = calls e ++ match kbId with
               | Some k =>
                   if truthy k
                   then map (fun f => (k, name f)) (uniqueFiles selectedIds allFiles)
                   else []
               | None => []
               end
  /\ forall c, In c (calls e') ->
       In c (calls e)
       \/ exists f, In f allFiles /\ Spec.indexedFile f = true
                    /\ c.2 = name f /\ kbId = Some (c.1).
Proof.
  intros e'.
  assert (calls e'
          = calls e ++ match kbId with
                       | Some k =>
                           if truthy k
                           then map (fun f => (k, name f)) (uniqueFiles selectedIds allFiles)
                           else []
                       | None => []
                       end) as Hcalls.
  { subst e'. unfold deleteSelectedFiles.
    destruct kbId as [k|]; [|by rewrite app_nil_r].
    destruct (truthy k); simpl; [|by rewrite app_nil_r].
    destruct (uniqueFiles selectedIds allFiles) as [|f plan] eqn:E;
      [simpl; by rewrite app_nil_r|].
    cbn [length Nat.eqb calls].
    by destruct (mutationFn_spec deleteKBResource k (f :: plan)
                   (mkLoop (world e) (deletingFiles e) [] [])) as (_ & -> & _). }
  split; [exact Hcalls|].
  intros c. rewrite Hcalls, in_app_iff. intros [?|Hc]; [by left|right].
  destruct kbId as [k|]; [|destruct Hc]. destruct (truthy k); [|destruct Hc].
  apply in_map_iff in Hc as (f & <- & Hf). apply plan_candidates in Hf.
  exists f. split; [by eapply candidate_known|].
  split; [by eapply candidate_indexed | done].
Qed.
End BackendMore.
End DeletionMore.

Lemma deletion_requests_only_indexed_witness :
  let D := mkFile "D" "D" "directory" None in
  let a := mkFile "a" "D/a" "file" (Some "indexed") in
  let b := mkFile "b" "D/b" "file" (Some "pending") in
  let del := fun (_ _ : string) (w : nat) => (S w, false) in
  let e := Deletion.mkEnv false ∅ 0%nat ∅ [] [] in
  Deletion.calls (Deletion.deleteSelectedFiles del (Some "kb") ["D"; "b"] [D; a; b] e)
  = [("kb", "D/a")]
  /\ exists f, In f [D; a; b] /\ Spec.indexedFile f = true /\ "D/a" = name f.
Proof.
  intros D a b del e.
  destruct (deletion_requests_only_indexed del (Some "kb") ["D"; "b"] [D; a; b] e)
    as [Hc Hall].
  split; [rewrite Hc; reflexivity|].
  destruct (Hall ("kb", "D/a")) as [[]|(f & ? & ? & ? & _)]; [rewrite Hc; by left|].
  by exists f.
Defined.

(** ** Selection *)

Section SelectionMore.
Import Selection.

Lemma handleSelectAll_truthy rows i :
  objTruthy (handleSelectAll true rows) i
  = (if in_dec string_dec i rows then true else false) || inherited i.
Proof.
  unfold handleSelectAll.
  change (foldl (fun sel j => objSet sel j true) ∅ rows)
    with (foldl (mark true) ∅ rows).
  destruct (in_dec string_dec i rows) as [Hin|Hout]; simpl.
  - by apply foldl_mark_selected.
  - unfold objTruthy. rewrite foldl_mark_out by done. by rewrite lookup_empty.
Qed.

(** X21. After select-all the selected files are the files whose id is
    among the visible rows or is the name of a member of [Object.prototype],
    in the order of the list, whatever was selected before; with the rows of
    all files every id of the list is selected; after deselect-all the files
    that still read as selected are those whose id is the name of a member
    of [Object.prototype], and there is none when no id is such a name. *)
Theorem select_all_round_trip files rows :
  selectedFiles files (handleSelectAll true rows)
  = List.filter (fun f => (if in_dec string_dec (id f) rows then true else false)
                          || inherited (id f)) files
  /\ selectedResourceIds files (handleSelectAll true (map id files)) = map id files
  /\ selectedFiles files (handleSelectAll false rows)
     = List.filter (fun f => inherited (id f)) files
  /\ (Forall (fun f => inherited (id f) = false) files ->
      selectedResourceIds files (handleSelectAll false rows) = []).
Proof.
  assert (selectedFiles files (handleSelectAll false rows)
          = List.filter (fun f => inherited (id f)) files) as Hoff.
  { unfold selectedFiles, handleSelectAll. apply filter_ext. intros f.
    unfold objTruthy. by rewrite lookup_empty. }
  split; [|split; [|split]].
  - unfold selectedFiles. apply filter_ext. intros f. apply handleSelectAll_truthy.
  - unfold selectedResourceIds, selectedFiles. f_equal.
    rewrite (filter_ext_in _ (fun _ => true)).
    + induction files as [|f l IH]; simpl; [done | by rewrite IH].
    + intros f Hf. rewrite handleSelectAll_truthy.
      destruct (in_dec _ _ _) as [|Hn]; [done|]. destruct Hn. by apply in_map.
  - exact Hoff.
  - intros Hno. unfold selectedResourceIds. rewrite Hoff. clear Hoff.
    induction Hno as [|f l Hf _ IH]; [reflexivity|]. simpl. by rewrite Hf.
Qed.

Lemma select_all_round_trip_witness :
  let a := mkFile "a" "a" "file" None in
  let b := mkFile "b" "b" "file" None in
  selectedResourceIds [a; b] (handleSelectAll true ["b"]) = ["b"]
  /\ selectedResourceIds [a; b] (handleSelectAll false ["b"]) = [].
Proof.
  intros a b.
  destruct (select_all_round_trip [a; b] ["b"]) as (_ & _ & _ & H).
  split; [reflexivity|]. apply H.
  repeat (apply Forall_cons; split; [reflexivity|]). apply Forall_nil. done.
Defined.

(** X22. A click on a row that is not a directory touches the entry of this
    row only, whatever the fuel: the entries of a parent directory and of
    all other rows are as before. After a selecting click the row reads as
    selected; after a deselecting click it has no entry, and reads as
    selected exactly when its id is the name of a member of
    [Object.prototype]. A click on an id that is not in the list changes
    nothing. *)
Theorem row_selection_of_file fuel files fileId isSelected prev :
  (forall f, List.find (fun f => String.eqb (id f) fileId) files = Some f ->
             isDirectory f = false ->
             exists sel,
               handleRowSelection fuel files fileId isSelected prev = Some sel
               /\ (forall j, j <> fileId -> sel !! j = prev !! j)
               /\ (isSelected = true -> objTruthy sel fileId = true)
               /\ (isSelected = false ->
                   sel !! fileId = None /\ objTruthy sel fileId = inherited fileId))
  /\ ((forall f, In f files -> id f <> fileId) ->
      handleRowSelection fuel files fileId isSelected prev = Some prev).
Proof.
  split.
  - intros f Hfind Hdir. unfold handleRowSelection. rewrite Hfind, Hdir.
    eexists. split; [reflexivity|]. split; [|split].
    + intros j Hj. by apply mark_other.
    + intros ->. apply objSet_truthy.
    + intros ->. unfold mark, objDelete, objTruthy. by rewrite lookup_delete_eq.
  - intros Hno. unfold handleRowSelection.
    destruct (List.find _ files) as [f|] eqn:E; [|done].
    apply find_some in E as [Hin Hid]. apply String.eqb_eq in Hid. by destruct (Hno f Hin).
Qed.

Lemma row_selection_of_file_witness :
  let D := mkFile "D" "D" "directory" None in
  let a := mkFile "a" "D/a" "file" None in
  (exists sel, handleRowSelection 0 [D; a] "a" true {["D" := false]} = Some sel
               /\ sel !! "D" = Some false /\ objTruthy sel "a" = true)
  /\ handleRowSelection 0 [D; a] "zz" true {["a" := true]} = Some {["a" := true]}.
Proof.
  intros D a.
  destruct (row_selection_of_file 0 [D; a] "a" true {["D" := false]}) as [H _].
  destruct (row_selection_of_file 0 [D; a] "zz" true {["a" := true]}) as [_ H'].
  split.
  - destruct (H a eq_refl eq_refl) as (sel & Hs & Ho & Ht & _).
    exists sel. split; [exact Hs|]. split; [by rewrite Ho | by apply Ht].
  - apply H'. intros f [<-|[<-|[]]]; discriminate.
Defined.


End SelectionMore.

(** ** Selection followed by deletion *)

Section SelectThenDelete.
Import Selection Deletion.

Lemma knownNode_of_known files d :
  NoDup (map id files) -> In d files -> Spec.knownNode files (id d) = Some d.
Proof.
  intros Hnd Hin. unfold Spec.knownNode.
  destruct (List.find _ (rev files)) as [d'|] eqn:E.
  - apply find_some in E as [Hin' Hid]. apply in_rev in Hin'.
    apply String.eqb_eq in Hid.
    by rewrite (NoDup_ids_inj files d' d Hnd Hin' Hin Hid).
  - apply in_rev in Hin. apply (find_none _ _ E) in Hin.
    by rewrite String.eqb_refl in Hin.
Qed.

(** The selection after a click that selects a directory. *)
Lemma select_directory_lookup files D prev :
  NoDup (map id files) -> In D files -> isDirectory D = true ->
  exists fuel0 ds,
    (forall i, In i ds <-> exists f, In f files /\ id f = i /\ Spec.under D f = true)
    /\ forall fuel, (fuel0 <= fuel)%nat ->
         exists sel,
           handleRowSelection fuel files (id D) true prev = Some sel
           /\ forall i, (i = id D \/ In i ds -> objTruthy sel i = true)
                        /\ (~ (i = id D \/ In i ds) -> sel !! i = prev !! i).
Proof.
  intros Hnd Hin Hdir.
  destruct (levels_end files Hnd D Hin) as [k Hend].
  destruct (descend_levels (childrenMap files) (S k) [id D] [] Hend) as [fuel0 Hfuel].
  exists fuel0, (Spec.levels (childrenMap files) (S k) [id D]).
  split; [intros i; by apply levels_descendants|].
  intros fuel Hle. unfold handleRowSelection, getAllDescendantIds.
  rewrite (find_by_id files D Hnd Hin), Hdir, (Hfuel fuel Hle).
  set (ds := Spec.levels _ _ _).
  exists (foldl (mark true) prev (id D :: ds)). split; [reflexivity|].
  intros i. split.
  - intros Hi. apply foldl_mark_selected. destruct Hi as [->|?]; [by left | by right].
  - intros Hn. apply foldl_mark_out. intros [<-|?]; apply Hn; [by left | by right].
Qed.

(** X24. Let the files have distinct ids, none of them the name of a member
    of [Object.prototype]. When a directory is selected by a click,
    starting from the empty selection, and the selected ids are given to
    the deletion, the plan holds exactly the indexed files of the list whose
    names lie under the directory. *)
Theorem select_then_delete_plan files D :
  NoDup (map id files) ->
  Forall (fun f => inherited (id f) = false) files ->
  In D files -> isDirectory D = true ->
  exists fuel0, forall fuel, (fuel0 <= fuel)%nat ->
    exists sel,
      handleRowSelection fuel files (id D) true ∅ = Some sel
      /\ forall f, In f (uniqueFiles (selectedResourceIds files sel) files)
                   <-> In f files /\ Spec.indexedFile f = true /\ Spec.under D f = true.
Proof.
  intros Hnd Hplain Hin Hdir.
  destruct (select_directory_lookup files D ∅ Hnd Hin Hdir) as (fuel0 & ds & Hds & Hsel).
  exists fuel0. intros fuel Hle. destruct (Hsel fuel Hle) as (sel & Hrun & Hlook).
  exists sel. split; [exact Hrun|].
  assert (Spec.indexedFile D = false) as HD
    by (unfold Spec.indexedFile; by rewrite (file_not_directory _ Hdir)).
  intros f. split.
  - intros Hf. apply plan_candidates in Hf.
    destruct Hf as (i & item & Hi & Hk & Hcase).
    apply knownNode_In in Hk as [Hitem Hid].
    unfold selectedResourceIds, selectedFiles in Hi.
    apply in_map_iff in Hi as (g & Hg & Hgin). apply filter_In in Hgin as [Hgin Hgsel].
    assert (g = item) as -> by (apply (NoDup_ids_inj files); congruence).
    assert (item = D \/ Spec.under D item = true) as Hscope.
    { destruct (Hlook (id item)) as [_ Hout].
      destruct (string_dec (id item) (id D)) as [E|E];
        [left; by apply (NoDup_ids_inj files)|right].
      destruct (in_dec string_dec (id item) ds) as [Hi|Hi].
      - apply Hds in Hi as (h & Hh & Hhid & Hu).
        by rewrite <- (NoDup_ids_inj files h item Hnd Hh Hitem Hhid).
      - unfold objTruthy in Hgsel. rewrite Hout in Hgsel by (intros [?|?]; done).
        rewrite lookup_empty in Hgsel. rewrite Forall_forall in Hplain.
        rewrite (Hplain item) in Hgsel by (by apply list_elem_of_In). discriminate. }
    destruct Hcase as [[Hidx ->]|(Hd & Hfin & Hidx & Hu)].
    + destruct Hscope as [->|Hu]; [congruence | done].
    + split; [done|]. split; [done|].
      destruct Hscope as [->|Hu']; [done | by eapply under_trans].
  - intros (Hf & Hidx & Hu). apply plan_covers; [done|].
    exists (id D), D. split; [|split; [by apply knownNode_of_known | right; done]].
    unfold selectedResourceIds, selectedFiles. apply in_map, filter_In.
    split; [done|]. destruct (Hlook (id D)) as [Hon _]. apply Hon. by left.
Qed.

Lemma select_then_delete_plan_witness :
  let D := mkFile "D" "D" "directory" None in
  let a := mkFile "a" "D/a" "file" (Some "indexed") in
  let E := mkFile "E" "D/E" "directory" None in
  let b := mkFile "b" "D/E/b" "file" (Some "indexed") in
  let c := mkFile "c" "c" "file" (Some "indexed") in
  let files := [D; a; E; b; c] in
  (uniqueFiles (selectedResourceIds files
                  (default ∅ (handleRowSelection 9 files "D" true ∅))) files = [a; b])
  /\ exists fuel0, forall fuel, (fuel0 <= fuel)%nat ->
       exists sel,
         handleRowSelection fuel files "D" true ∅ = Some sel
         /\ forall f, In f (uniqueFiles (selectedResourceIds files sel) files)
                      <-> In f files /\ Spec.indexedFile f = true /\ Spec.under D f = true.
Proof.
  intros D a E b c files. split; [by vm_compute|].
  apply (select_then_delete_plan files D).
  - simpl. repeat (apply NoDup_cons; split; [by apply (bool_decide_unpack _)|]).
    by apply NoDup_nil.
  - repeat (apply Forall_cons; split; [reflexivity|]). by apply Forall_nil.
  - by left.
  - reflexivity.
Defined.
End SelectThenDelete.

(** ** The path of a folder *)

Section FolderPath.
Import FileTree.

Lemma splitOn_cons sep s : exists seg segs, splitOn sep s = seg :: segs.
Proof.
  induction s as [|c s (seg & segs & IH)]; simpl; [by eexists _, _|].
  destruct (Ascii.eqb c sep); [by eexists _, _|]. rewrite IH. by eexists _, _.
Qed.

Lemma joinWith_cons sep x y rest :
  joinWith sep (x :: y :: rest) = x +:+ sep +:+ joinWith sep (y :: rest).
Proof. reflexivity. Qed.

(** Joining the parts of a string gives the string back. *)
Lemma join_split s : joinWith "/" (splitOn "/" s) = s.
Proof.
  induction s as [|c s IH]; [reflexivity|]. cbn [splitOn].
  destruct (splitOn_cons "/" s) as (seg & segs & E). rewrite E in *.
  destruct (Ascii.eqb_spec c "/") as [->|_].
  - rewrite joinWith_cons, IH. reflexivity.
  - destruct segs as [|seg' segs]; [simpl in *; by rewrite IH|].
    rewrite joinWith_cons in *. rewrite append_cons. by rewrite IH.
Qed.

Lemma splitOn_last dir base :
  Spec.hasSlash base = false ->
  splitOn "/" (dir +:+ "/" +:+ base) = splitOn "/" dir ++ [base].
Proof.
  intros Hb.
  assert (splitOn "/" base = [base]) as Hbase.
  { induction base as [|c base IH]; [reflexivity|]. simpl in Hb.
    apply orb_false_iff in Hb as [Hc Hb]. cbn [splitOn]. rewrite Hc, IH by done.
    reflexivity. }
  induction dir as [|c dir IH].
  - change ("" +:+ "/" +:+ base) with (String "/" base). cbn [splitOn].
    rewrite Ascii.eqb_refl, Hbase. reflexivity.
  - rewrite append_cons. cbn [splitOn]. rewrite IH.
    destruct (Ascii.eqb c "/"); [reflexivity|].
    destruct (splitOn_cons "/" dir) as (seg & segs & ->). reflexivity.
Qed.

(** X25. The folder path of a listing is read off its first file: a slash
    and the name without its last segment. For a first file named
    [dir/base], [base] without a slash, the path is [/dir]; for a first file
    whose name has no slash it is [/]; for the empty listing it is the empty
    string. *)
Theorem folder_path_of_first_file f rest :
  getFolderPath [] = ""
  /\ (forall dir base, name f = dir +:+ "/" +:+ base -> Spec.hasSlash base = false ->
        getFolderPath (f :: rest) = "/" +:+ dir)
  /\ (Spec.hasSlash (name f) = false -> getFolderPath (f :: rest) = "/").
Proof.
  split; [reflexivity|]. split.
  - intros dir base Hname Hb. unfold getFolderPath.
    rewrite Hname, (splitOn_last dir base Hb), removelast_last. by rewrite join_split.
  - intros Hn. unfold getFolderPath.
    assert (splitOn "/" (name f) = [name f]) as ->; [|reflexivity].
    induction (name f) as [|c s IH]; [reflexivity|]. simpl in Hn.
    apply orb_false_iff in Hn as [Hc Hn]. cbn [splitOn]. rewrite Hc, IH by done.
    reflexivity.
Qed.

Lemma folder_path_of_first_file_witness :
  let f := mkFile "x" "docs/sub/file.txt" "file" None in
  getFolderPath [f; mkFile "y" "other/y" "file" None] = "/docs/sub".
Proof.
  intros f.
  destruct (folder_path_of_first_file f [mkFile "y" "other/y" "file" None])
    as (_ & H & _).
  apply (H "docs/sub" "file.txt"); reflexivity.
Defined.
End FolderPath.

(** ** Creation of a knowledge base *)

Section CreationMore.
Import Operations.
Context {World : Type}.
Variable deduplicateResourceIds : list string -> list FileItem -> list string.
Variable createKnowledgeBase : list string -> World -> World * option KnowledgeBase.
Variable syncKnowledgeBase : string -> World -> World * bool.


End CreationMore.


(** ** The status cell of a row *)

Section StatusCellMore.
Import StatusCell.


End StatusCellMore.
